(** * The permission engine of YunoHost ([src/yunohost/permission.py])

    A shallow embedding of the permission module: the catalog
    ([user_permission_list]), the mutators ([user_permission_update],
    [user_permission_reset], [permission_create], [permission_url]), the
    synchronizer ([permission_sync_to_user]) and the internal writer
    ([_update_ldap_group_permission]) with its access-change callbacks.

    Python values are modelled as the code uses them: strings as [string],
    lists as [list], a [set] as a duplicate-free list, a dict as an
    association list in insertion order, [None] as [option].  Exceptions are a
    sum type; the directory, the log and the random source are threaded as an
    explicit state, which survives a raised exception. *)

From Stdlib Require Import String Ascii List Bool ZArith Lia DecimalString.
Import ListNotations.
Open Scope string_scope.
Open Scope list_scope.

(** Python's [+] on strings; [++] stays list concatenation. *)
Infix "+++" := String.append (right associativity, at level 60).

(** ** Python primitives used by the module *)

Module Py.

(** [c in chars], for the character sets given to [lstrip]/[rstrip]. *)
Fixpoint mem_ascii (c : ascii) (chars : string) : bool :=
  match chars with
  | EmptyString => false
  | String d chars' => Ascii.eqb c d || mem_ascii c chars'
  end.

(** [s.startswith(p)] *)
Definition startswith (s p : string) : bool := String.prefix p s.

(** [s.lstrip(chars)]: drops every leading character that belongs to the
    set [chars] (the argument is a set of characters, not a prefix). *)
Fixpoint lstrip (s chars : string) : string :=
  match s with
  | EmptyString => EmptyString
  | String c s' => if mem_ascii c chars then lstrip s' chars else s
  end.

(** [s.rstrip(chars)] *)
Fixpoint rstrip (s chars : string) : string :=
  match s with
  | EmptyString => EmptyString
  | String c s' =>
      match rstrip s' chars with
      | EmptyString => if mem_ascii c chars then EmptyString else String c EmptyString
      | r => String c r
      end
  end.

(** [s.split(sep)] for a one-character separator. *)
Fixpoint split (s : string) (sep : ascii) : list string :=
  match s with
  | EmptyString => [EmptyString]
  | String c s' =>
      if Ascii.eqb c sep then EmptyString :: split s' sep
      else match split s' sep with
           | [] => [String c EmptyString]
           | h :: t => String c h :: t
           end
  end.

(** [sub in s] on two strings: substring test. *)
Fixpoint contains (s sub : string) : bool :=
  String.prefix sub s ||
  match s with
  | EmptyString => false
  | String _ s' => contains s' sub
  end.

(** [x in l] on a list of strings. *)
Definition mem (x : string) (l : list string) : bool :=
  existsb (String.eqb x) l.

(** Iterating over a string yields its characters as one-character
    strings. *)
Fixpoint chars (s : string) : list string :=
  match s with
  | EmptyString => []
  | String c s' => String c EmptyString :: chars s'
  end.

(** [set(l)]: the distinct elements of [l].  The iteration order of a
    Python set is unspecified; the model fixes one. *)
Definition set (l : list string) : list string := nodup string_dec l.

(** [a - b] on sets. *)
Definition diff (a b : list string) : list string :=
  filter (fun x => negb (mem x b)) a.

(** [a == b] on sets: mutual inclusion. *)
Definition set_eqb (a b : list string) : bool :=
  forallb (fun x => mem x b) a && forallb (fun x => mem x a) b.

(** [a == b] on lists of strings. *)
Fixpoint list_eqb (a b : list string) : bool :=
  match a, b with
  | [], [] => true
  | x :: a', y :: b' => String.eqb x y && list_eqb a' b'
  | _, _ => false
  end.

(** [sep.join(l)] *)
Definition join (sep : string) (l : list string) : string := String.concat sep l.

(** [str(n)] on an integer. *)
Definition str_of_int (n : Z) : string := NilZero.string_of_int (Z.to_int n).

(** [str(b).upper()] on a boolean. *)
Definition str_upper_of_bool (b : bool) : string :=
  if b then "TRUE" else "FALSE".

(** [d.get(k)] on a dict kept as an association list. *)
Fixpoint get {V : Type} (d : list (string * V)) (k : string) : option V :=
  match d with
  | [] => None
  | (k', v) :: d' => if String.eqb k k' then Some v else get d' k
  end.

(** [d[k] = v]: an existing key keeps its position. *)
Fixpoint setitem {V : Type} (d : list (string * V)) (k : string) (v : V)
  : list (string * V) :=
  match d with
  | [] => [(k, v)]
  | (k', v') :: d' =>
      if String.eqb k k' then (k, v) :: d' else (k', v') :: setitem d' k v
  end.

(** [d[k]] *)
Definition getitem {V : Type} (d : list (string * V)) (k : string) : option V :=
  get d k.

(** A value that is an [int] or a [str]; [==] across the two types is
    [False]. *)
Inductive value : Type :=
| Int (n : Z)
| Str (s : string).

Definition value_eqb (a b : value) : bool :=
  match a, b with
  | Int m, Int n => Z.eqb m n
  | Str s, Str t => String.eqb s t
  | _, _ => false
  end.

(** [x in s] on a set of values. *)
Definition value_mem (x : value) (s : list value) : bool :=
  existsb (value_eqb x) s.

(** An argument documented as a list of names that callers also pass as
    [None] or as a bare string. *)
Inductive arg : Type :=
| ArgNone
| ArgStr (s : string)
| ArgList (l : list string).

(** Truth value of such an argument: [None], [""] and [[]] are false. *)
Definition truthy (a : arg) : bool :=
  match a with
  | ArgNone => false
  | ArgStr s => negb (String.eqb s EmptyString)
  | ArgList l => match l with [] => false | _ => true end
  end.

(** [x in a]: substring test on a string, membership on a list.  ([None]
    is never reached: every use is guarded by [a and ...].) *)
Definition arg_contains (a : arg) (x : string) : bool :=
  match a with
  | ArgNone => false
  | ArgStr s => contains s x
  | ArgList l => mem x l
  end.

(** [[a] if not isinstance(a, list) else a] *)
Definition as_list (a : arg) : list string :=
  match a with
  | ArgNone => []
  | ArgStr s => [s]
  | ArgList l => l
  end.

(** [set(a)]: the characters of a string, the elements of a list. *)
Definition set_of_arg (a : arg) : list string :=
  match a with
  | ArgNone => []
  | ArgStr s => set (chars s)
  | ArgList l => set l
  end.

Definition option_string_dec (a b : option string) : {a = b} + {a <> b}.
Proof. decide equality. apply string_dec. Defined.

(** [set(l)] on a list that may hold [None]. *)
Definition set_opt (l : list (option string)) : list (option string) :=
  nodup option_string_dec l.

(** [x in l] on a list that may hold [None]. *)
Definition mem_opt (x : option string) (l : list (option string)) : bool :=
  if in_dec option_string_dec x l then true else false.

(** [str(x)] on a string or [None]. *)
Definition str_of_option (x : option string) : string :=
  match x with
  | Some s => s
  | None => "None"
  end.

End Py.

(** The exceptions the module raises or lets escape.  [LdapError] stands for
    whatever the directory client raises; [OutOfFuel] is not a Python
    exception: it marks a [while] loop that outlived the model's bound. *)
Inductive exn : Type :=
| YunohostError (key : string) (arg : string)
| KeyError (key : string)
| TypeError (what : string)
| AttributeError (what : string)
| IndexError
| LdapError (dn : string)
| OutOfFuel.

Inductive result (A : Type) : Type :=
| Ok (a : A)
| Raise (e : exn).
Arguments Ok {A} a.
Arguments Raise {A} e.

Definition rbind {A B : Type} (r : result A) (k : A -> result B) : result B :=
  match r with
  | Ok a => k a
  | Raise e => Raise e
  end.

(** [[f(x) for x in l]] where [f] may raise: the first exception wins. *)
Fixpoint rmap {A B : Type} (f : A -> result B) (l : list A) : result (list B) :=
  match l with
  | [] => Ok []
  | x :: l' =>
      rbind (f x) (fun y => rbind (rmap f l') (fun ys => Ok (y :: ys)))
  end.

(** ** Module constants *)

(** [SYSTEM_PERMS = ["mail", "xmpp", "stfp"]] (line 39, spelled as in the
    source). *)
Definition SYSTEM_PERMS : list string := ["mail"; "xmpp"; "stfp"].

(** [name.split('.')[0]] *)
Definition app_of (name : string) : string :=
  hd EmptyString (Py.split name ".").

(** ** URL completion (lines 65-73)

    [app_settings] is the dict built at line 63: app id to domain + path. *)
Definition _complete_url (app_settings : list (string * string))
  (url : option string) (name : string) : result (option string) :=
  match url with
  | None => Ok None
  | Some url =>
      if Py.startswith url "/" then
        match Py.get app_settings (app_of name) with
        | Some base => Ok (Some (base +++ Py.rstrip url "/"))
        | None => Raise (KeyError (app_of name))
        end
      else if Py.startswith url "re:/" then
        match Py.get app_settings (app_of name) with
        | Some base => Ok (Some ("re:" +++ base +++ Py.lstrip url "re:/"))
        | None => Raise (KeyError (app_of name))
        end
      else Ok (Some url)
  end.


(** ** The directory, the environment and the state *)

(** Modelled from the spec: the Directory Store ("entries addressable by a
    distinguished path", "all attribute values are stored as ordered
    sequences of strings").  A permission entry lives at
    [cn=<name>,ou=permission]; an attribute without values is absent. *)
Record entry : Type := {
  cn : string;
  attributes : list (string * list string)
}.

Definition entry_dn (e : entry) : string := "cn=" +++ cn e +++ ",ou=permission".

(** [infos.get(k, [])]; the defaults of lines 84-97 are applied by the
    readers below. *)
Definition attr (infos : entry) (k : string) : list string :=
  match Py.get (attributes infos) k with
  | Some vs => vs
  | None => []
  end.

(** The attribute dict handed to [ldap.update]: a value list may hold [None]. *)
Definition delta : Type := list (string * list (option string)).

(** What the module does to the outside, in order. *)
Inductive event : Type :=
| LdapAdd (dn : string) (attr_dict : list (string * list string))
| LdapUpdate (dn : string) (attr_dict : delta)
| Warning (key : string) (arg : string)
| Debug (msg : string)
| RelatedTo (kind : string) (target : string)
| OperationStart
| HookCallback (name : string) (args : list string)
| AppSsowatconf
| OsSystem (cmd : string).

(** What the module reads from its collaborators. *)
Record env : Type := {
  (** [user_group_list(full=True)["groups"]]: group name to members *)
  groups : list (string * list string);
  (** the dict of line 63: app id to domain + path *)
  app_settings : list (string * string);
  (** [{x.gr_gid for x in grp.getgrall()}] *)
  all_gid : list Z;
  (** the successive results of [random.randint(200, 99999)] *)
  randint : nat -> Z;
  (** whether the directory raises on this [add]/[update], given its content *)
  ldap_refuses : list entry -> string -> delta -> bool;
  (** [yunohost.domain._check_and_normalize_permission_path] *)
  _check_and_normalize_permission_path : string -> result string
}.

Record state : Type := {
  ldap : list entry;
  trace : list event;
  rand_calls : nat
}.

(** ** State and exception monad: the state survives a raise *)

Definition M (A : Type) : Type := state -> result A * state.

Definition ret {A : Type} (a : A) : M A := fun s => (Ok a, s).

Definition bind {A B : Type} (m : M A) (k : A -> M B) : M B :=
  fun s =>
    match m s with
    | (Ok a, s') => k a s'
    | (Raise e, s') => (Raise e, s')
    end.

Definition raise {A : Type} (e : exn) : M A := fun s => (Raise e, s).

Definition lift {A : Type} (r : result A) : M A := fun s => (r, s).

(** [try: m  except Exception as e: h e] *)
Definition try_except {A : Type} (m : M A) (h : exn -> M A) : M A :=
  fun s =>
    match m s with
    | (Ok a, s') => (Ok a, s')
    | (Raise e, s') => h e s'
    end.

Definition emit (ev : event) : M unit :=
  fun s =>
    (Ok tt, {| ldap := ldap s; trace := trace s ++ [ev]; rand_calls := rand_calls s |}).

Declare Scope monad_scope.
Delimit Scope monad_scope with monad.
Notation "x <- m ;; k" := (bind m (fun x => k))
  (at level 100, m at next level, right associativity) : monad_scope.
Notation "m ;; k" := (bind m (fun _ => k))
  (at level 100, right associativity) : monad_scope.
Open Scope monad_scope.

(** [for x in l: body x] *)
Fixpoint for_each {A : Type} (l : list A) (body : A -> M unit) : M unit :=
  match l with
  | [] => ret tt
  | x :: l' => body x ;; for_each l' body
  end.

(** [if c: body] *)
Definition when (c : bool) (body : M unit) : M unit :=
  if c then body else ret tt.

(** ** Directory operations *)

(** Values that are not [None]: the directory client drops null values from
    an attribute dict. *)
Fixpoint somes {A : Type} (l : list (option A)) : list A :=
  match l with
  | [] => []
  | Some x :: l' => x :: somes l'
  | None :: l' => somes l'
  end.

Fixpoint remove_key {V : Type} (d : list (string * V)) (k : string) : list (string * V) :=
  match d with
  | [] => []
  | (k', v) :: d' => if String.eqb k k' then remove_key d' k else (k', v) :: remove_key d' k
  end.

(** Modelled from the spec: [update(path, attributeDelta)] replaces the
    listed attributes and keeps the others; a listed attribute left without
    values is removed. *)
Fixpoint apply_delta (a : list (string * list string)) (d : delta)
  : list (string * list string) :=
  match d with
  | [] => a
  | (k, vs) :: d' =>
      match somes vs with
      | [] => apply_delta (remove_key a k) d'
      | vs' => apply_delta (Py.setitem a k vs') d'
      end
  end.

Definition has_dn (dn : string) (e : entry) : bool := String.eqb (entry_dn e) dn.


(** ** The catalog records *)

(** One value of the dict returned by [user_permission_list(full=True)]. *)
Module Perm.
Record t : Type := {
  allowed : list string;
  corresponding_users : list string;
  auth_header : bool;
  label : option string;
  show_tile : bool;
  protected : bool;
  url : option string;
  additional_urls : list (option string)
}.
End Perm.

(** Modelled from the spec: [yunohost.utils.ldap._ldap_path_extract], which
    recovers [<name>] from a [cn=<name>,...] style key: the value of the
    first [info=] component of the path.  A path without such a component
    yields the empty name in this model. *)
Definition _ldap_path_extract (path info : string) : string :=
  let key := info +++ "=" in
  match filter (fun element => Py.startswith element key) (Py.split path ",") with
  | element :: _ => String.substring (String.length key)
                      (String.length element - String.length key) element
  | [] => EmptyString
  end.

(** [False if infos.get(k, [False])[0] == "FALSE" else True] *)
Definition read_flag (values : list string) : bool :=
  match values with
  | v :: _ => negb (String.eqb v "FALSE")
  | [] => true
  end.

(** [infos.get(k, [None])[0]] *)
Definition first_or_none (values : list string) : option string :=
  match values with
  | v :: _ => Some v
  | [] => None
  end.

(** [infos.get(k, [None])] *)
Definition values_or_none (values : list string) : list (option string) :=
  match values with
  | [] => [None]
  | _ => map Some values
  end.

(** [permission + ".main"] when the name has no dot (lines 123-124 and the
    like). *)
Definition main_by_default (permission : string) : string :=
  if negb (Py.contains permission ".") then permission +++ ".main" else permission.

Section WithEnv.

Variable E : env.

(** Modelled from the spec: [ldap.update(dn, attr_dict)].  Every call is
    recorded; it raises when the directory refuses it or has no such
    entry, and then changes nothing. *)
Definition ldap_update (dn : string) (attr_dict : delta) : M unit :=
  fun s =>
    let s' := {| ldap := ldap s;
                 trace := trace s ++ [LdapUpdate dn attr_dict];
                 rand_calls := rand_calls s |} in
    if ldap_refuses E (ldap s) dn attr_dict || negb (existsb (has_dn dn) (ldap s))
    then (Raise (LdapError dn), s')
    else (Ok tt,
          {| ldap := map (fun e => if has_dn dn e
                                   then {| cn := cn e;
                                           attributes := apply_delta (attributes e) attr_dict |}
                                   else e) (ldap s);
             trace := trace s';
             rand_calls := rand_calls s |}).

(** *** [user_permission_list] (lines 48-102), for [full=True] and
    [short=False], the only way the module calls it *)

(** The body of the loop of lines 76-97 for one directory entry. *)
Definition read_permission (full_path : bool) (infos : entry) : result Perm.t :=
  let name := cn infos in
  rbind
    (if full_path && negb (Py.mem (app_of name) SYSTEM_PERMS) then
       rbind (_complete_url (app_settings E) (first_or_none (attr infos "URL")) name)
         (fun url =>
            rbind (rmap (fun url => _complete_url (app_settings E) url name)
                     (values_or_none (attr infos "additionalUrls")))
              (fun additional_urls => Ok (url, additional_urls)))
     else
       Ok (first_or_none (attr infos "URL"),
           values_or_none (attr infos "additionalUrls")))
    (fun urls =>
       Ok {| Perm.allowed :=
               map (fun p => _ldap_path_extract p "cn") (attr infos "groupPermission");
             Perm.corresponding_users :=
               map (fun p => _ldap_path_extract p "uid") (attr infos "inheritPermission");
             Perm.auth_header := read_flag (attr infos "authHeader");
             Perm.label := first_or_none (attr infos "label");
             Perm.show_tile := read_flag (attr infos "showTile");
             Perm.protected := read_flag (attr infos "isProtected");
             Perm.url := fst urls;
             Perm.additional_urls := snd urls |}).

Fixpoint read_permissions (ignore_system_perms full_path : bool)
  (permissions_infos : list entry) (permissions : list (string * Perm.t))
  : result (list (string * Perm.t)) :=
  match permissions_infos with
  | [] => Ok permissions
  | infos :: rest =>
      let name := cn infos in
      if ignore_system_perms && Py.mem (app_of name) SYSTEM_PERMS
      then read_permissions ignore_system_perms full_path rest permissions
      else rbind (read_permission full_path infos)
             (fun p => read_permissions ignore_system_perms full_path rest
                         (Py.setitem permissions name p))
  end.

Definition user_permission_list (ignore_system_perms full_path : bool)
  : M (list (string * Perm.t)) :=
  fun s => (read_permissions ignore_system_perms full_path (ldap s) [], s).

(** *** [permission_sync_to_user] (lines 447-490) *)

(** [[user for group in allowed for user in groups[group]["members"]]] *)
Fixpoint members_of (allowed : list string) : result (list string) :=
  match allowed with
  | [] => Ok []
  | group :: rest =>
      match Py.get (groups E) group with
      | Some members => rbind (members_of rest) (fun users => Ok (members ++ users))
      | None => Raise (KeyError group)
      end
  end.

(** The attribute dict of lines 475-476. *)
Definition new_inherited_perms (should_be_allowed_users : list string) : delta :=
  [("inheritPermission",
     map (fun u => Some ("uid=" +++ u +++ ",ou=users,dc=yunohost,dc=org"))
       should_be_allowed_users);
   ("memberUid", map Some should_be_allowed_users)].

(** The body of the loop of lines 461-482. *)
Definition sync_permission (item : string * Perm.t) : M unit :=
  let (permission_name, permission_infos) := item in
  let currently_allowed_users := Py.set (Perm.corresponding_users permission_infos) in
  users <- lift (members_of (Perm.allowed permission_infos)) ;;
  let should_be_allowed_users := Py.set users in
  if Py.set_eqb currently_allowed_users should_be_allowed_users then ret tt
  else
    try_except
      (ldap_update ("cn=" +++ permission_name +++ ",ou=permission")
         (new_inherited_perms should_be_allowed_users))
      (fun _ => raise (YunohostError "permission_update_failed" permission_name)).

Definition permission_sync_to_user : M unit :=
  permissions <- user_permission_list false false ;;
  for_each permissions sync_permission ;;
  emit (Debug "The permission database has been resynchronized") ;;
  emit AppSsowatconf ;;
  emit (OsSystem "nscd --invalidate=passwd") ;;
  emit (OsSystem "nscd --invalidate=group").

(** *** The access-change callbacks (lines 554-574) *)

Definition effectively_added_users (existing_permission new_permission : Perm.t)
  : list string :=
  Py.diff (Py.set (Perm.corresponding_users new_permission))
          (Py.set (Perm.corresponding_users existing_permission)).

Definition effectively_removed_users (existing_permission new_permission : Perm.t)
  : list string :=
  Py.diff (Py.set (Perm.corresponding_users existing_permission))
          (Py.set (Perm.corresponding_users new_permission)).

Definition effectively_added_group (existing_permission new_permission : Perm.t)
  : list string :=
  Py.diff (Py.diff (Py.set (Perm.allowed new_permission))
                   (Py.set (Perm.allowed existing_permission)))
          (effectively_added_users existing_permission new_permission).

Definition effectively_removed_group (existing_permission new_permission : Perm.t)
  : list string :=
  Py.diff (Py.diff (Py.set (Perm.allowed existing_permission))
                   (Py.set (Perm.allowed new_permission)))
          (effectively_removed_users existing_permission new_permission).

(** A set is true when it is not empty. *)
Definition nonempty (l : list string) : bool :=
  match l with [] => false | _ => true end.

(** Lines 571-574: the hook calls, in order. *)
Definition access_callbacks (app sub_permission : string)
  (existing_permission new_permission : Perm.t) : list event :=
  let added_users := effectively_added_users existing_permission new_permission in
  let removed_users := effectively_removed_users existing_permission new_permission in
  let added_group := effectively_added_group existing_permission new_permission in
  let removed_group := effectively_removed_group existing_permission new_permission in
  (if nonempty added_users || nonempty added_group
   then [HookCallback "post_app_addaccess"
           [app; Py.join "," added_users; sub_permission; Py.join "," added_group]]
   else [])
  ++
  (if nonempty removed_users || nonempty removed_group
   then [HookCallback "post_app_removeaccess"
           [app; Py.join "," removed_users; sub_permission; Py.join "," removed_group]]
   else []).

(** [permissions[permission]] *)
Definition lookup (permissions : list (string * Perm.t)) (permission : string)
  : result Perm.t :=
  match Py.getitem permissions permission with
  | Some p => Ok p
  | None => Raise (KeyError permission)
  end.

(** [permission.split(".")[1]] *)
Definition sub_permission_of (permission : string) : result string :=
  match Py.split permission "." with
  | _ :: sub :: _ => Ok sub
  | _ => Raise IndexError
  end.

(** *** [_update_ldap_group_permission] (lines 493-576) *)
Definition _update_ldap_group_permission (permission : string) (allowed : Py.arg)
  (label : option string) (show_tile protected : option bool) (sync_perm : bool)
  : M Perm.t :=
  permissions <- user_permission_list false false ;;
  existing_permission <- lift (lookup permissions permission) ;;
  let allowed := match allowed with
                 | Py.ArgNone => Py.ArgList (Perm.allowed existing_permission)
                 | _ => allowed
                 end in
  let label := match label with
               | None => Perm.label existing_permission
               | Some _ => label
               end in
  let show_tile := match show_tile with
                   | None => Perm.show_tile existing_permission
                   | Some b => b
                   end in
  let protected := match protected with
                   | None => Perm.protected existing_permission
                   | Some b => b
                   end in
  let allowed := Py.set_of_arg allowed in
  try_except
    (ldap_update ("cn=" +++ permission +++ ",ou=permission")
       [("groupPermission",
          map (fun g => Some ("cn=" +++ g +++ ",ou=groups,dc=yunohost,dc=org")) allowed);
        ("label", match label with
                  | Some EmptyString => []
                  | _ => [Some (Py.str_of_option label)]
                  end);
        ("showTile", [Some (Py.str_upper_of_bool show_tile)]);
        ("isProtected", [Some (Py.str_upper_of_bool protected)])])
    (fun _ => raise (YunohostError "permission_update_failed" permission)) ;;
  when sync_perm permission_sync_to_user ;;
  permissions <- user_permission_list false true ;;
  new_permission <- lift (lookup permissions permission) ;;
  let app := app_of permission in
  sub_permission <- lift (sub_permission_of permission) ;;
  for_each (access_callbacks app sub_permission existing_permission new_permission) emit ;;
  ret new_permission.

(** *** [user_permission_update] (lines 104-189) *)

(** [existing_permission["protected"]], on what [.get(permission, None)]
    returned. *)
Definition protected_of (existing_permission : option Perm.t) : result bool :=
  match existing_permission with
  | Some p => Ok (Perm.protected p)
  | None => Raise (TypeError "'NoneType' object is not subscriptable")
  end.

(** [a and "visitors" in a and existing_permission["protected"]] *)
Definition visitors_on_protected (a : Py.arg) (existing_permission : option Perm.t)
  : result bool :=
  if Py.truthy a && Py.arg_contains a "visitors"
  then protected_of existing_permission
  else Ok false.

(** The condition of lines 133-134, with Python's evaluation order. *)
Definition protected_guard (add remove : Py.arg) (existing_permission : option Perm.t)
  (force : bool) : result bool :=
  rbind (visitors_on_protected add existing_permission)
    (fun a =>
       if a then Ok (negb force)
       else rbind (visitors_on_protected remove existing_permission)
              (fun r => if r then Ok (negb force) else Ok false)).

(** The loop of lines 152-159. *)
Fixpoint add_groups (permission : string) (current_allowed_groups : list string)
  (groups_to_add : list string) (new_allowed_groups : list string)
  : M (list string) :=
  match groups_to_add with
  | [] => ret new_allowed_groups
  | group :: rest =>
      if negb (Py.mem group (map fst (groups E)))
      then raise (YunohostError "group_unknown" group)
      else if Py.mem group current_allowed_groups
      then emit (Warning "permission_already_allowed" group) ;;
           add_groups permission current_allowed_groups rest new_allowed_groups
      else emit (RelatedTo "group" group) ;;
           add_groups permission current_allowed_groups rest
             (new_allowed_groups ++ [group])
  end.

(** The loop of lines 163-167. *)
Definition remove_groups (current_allowed_groups groups_to_remove : list string)
  : M unit :=
  for_each groups_to_remove
    (fun group =>
       if negb (Py.mem group current_allowed_groups)
       then emit (Warning "permission_already_disallowed" group)
       else emit (RelatedTo "group" group)).

Definition user_permission_update (permission : string) (add remove : Py.arg)
  (label : option string) (show_tile protected : option bool)
  (force sync_perm : bool) : M Perm.t :=
  let permission := main_by_default permission in
  permissions <- user_permission_list false false ;;
  let existing_permission := Py.get permissions permission in
  if Py.truthy add && Py.arg_contains add "visitors"
     && Py.mem (app_of permission) SYSTEM_PERMS
  then raise (YunohostError "permission_require_account" permission)
  else
    refused <- lift (protected_guard add remove existing_permission force) ;;
    if refused then raise (YunohostError "permission_protected" permission)
    else
      match existing_permission with
      | None => raise (YunohostError "permission_not_found" permission)
      | Some existing_permission =>
          let current_allowed_groups := Perm.allowed existing_permission in
          emit (RelatedTo "app" (app_of permission)) ;;
          let new_allowed_groups := current_allowed_groups in
          new_allowed_groups <-
            (if Py.truthy add
             then add_groups permission current_allowed_groups (Py.as_list add)
                    new_allowed_groups
             else ret new_allowed_groups) ;;
          new_allowed_groups <-
            (if Py.truthy remove
             then
               let groups_to_remove := Py.as_list remove in
               remove_groups current_allowed_groups groups_to_remove ;;
               ret (filter (fun g => negb (Py.mem g groups_to_remove)) new_allowed_groups)
             else ret new_allowed_groups) ;;
          when (Py.mem "all_users" new_allowed_groups
                && (2 <=? length new_allowed_groups)%nat
                && (negb (Py.mem "visitors" new_allowed_groups)
                    || (3 <=? length new_allowed_groups)%nat))
            (emit (Warning "permission_currently_allowed_for_all_users" "")) ;;
          emit OperationStart ;;
          new_permission <-
            _update_ldap_group_permission permission (Py.ArgList new_allowed_groups)
              label show_tile protected sync_perm ;;
          emit (Debug "permission_updated") ;;
          ret new_permission
      end.

(** *** [user_permission_reset] (lines 192-224); [None] is the bare
    [return] of line 213 *)
Definition user_permission_reset (permission : string) (sync_perm : bool)
  : M (option Perm.t) :=
  let permission := main_by_default permission in
  permissions <- user_permission_list false false ;;
  match Py.get permissions permission with
  | None => raise (YunohostError "permission_not_found" permission)
  | Some existing_permission =>
      if Py.list_eqb (Perm.allowed existing_permission) ["all_users"]
      then emit (Warning "permission_already_up_to_date" "") ;; ret None
      else
        emit (RelatedTo "app" (app_of permission)) ;;
        emit OperationStart ;;
        new_permission <-
          _update_ldap_group_permission permission (Py.ArgStr "all_users")
            None None None sync_perm ;;
        emit (Debug "permission_updated") ;;
        ret (Some new_permission)
  end.

(** *** [permission_url] (lines 325-404) *)

(** [_check_and_normalize_permission_path(url)] on a value that may be
    [None]: the collaborator starts with [url.startswith], which [None]
    does not have. *)
Definition check_path (url : option string) : result string :=
  match url with
  | Some u => _check_and_normalize_permission_path E u
  | None => Raise (AttributeError "'NoneType' object has no attribute 'startswith'")
  end.

(** The loop of lines 365-369.  [url] is the permission's main url, as
    computed at lines 356-359. *)
Fixpoint add_urls (url : option string) (current_additional_urls : list (option string))
  (add_url : list string) (new_additional_urls : list (option string))
  : M (list (option string)) :=
  match add_url with
  | [] => ret new_additional_urls
  | ur :: rest =>
      if Py.mem_opt (Some ur) current_additional_urls
      then emit (Warning "additional_urls_already_added" (Py.str_of_option url)) ;;
           add_urls url current_additional_urls rest new_additional_urls
      else checked <- lift (check_path url) ;;
           add_urls url current_additional_urls rest
             (new_additional_urls ++ [Some checked])
  end.

(** The loop of lines 372-374. *)
Definition remove_urls (url : option string)
  (current_additional_urls : list (option string)) (remove_url : list string) : M unit :=
  for_each remove_url
    (fun ur =>
       when (negb (Py.mem_opt (Some ur) current_additional_urls))
         (emit (Warning "additional_urls_already_removed" (Py.str_of_option url)))).

(** [u not in remove_url], for [u] a string or [None]. *)
Definition not_in_removed (remove_url : list string) (u : option string) : bool :=
  match u with
  | Some u => negb (Py.mem u remove_url)
  | None => true
  end.

Definition permission_url (permission : string) (url : option string)
  (add_url remove_url : option (list string)) (auth_header : option bool)
  (clear_urls sync_perm : bool) : M Perm.t :=
  let permission := main_by_default permission in
  permissions <- user_permission_list false false ;;
  match Py.get permissions permission with
  | None => raise (YunohostError "permission_not_found" permission)
  | Some existing_permission =>
      url <- (match url with
              | None => ret (Perm.url existing_permission)
              | Some u => checked <- lift (_check_and_normalize_permission_path E u) ;;
                          ret (Some checked)
              end) ;;
      let current_additional_urls := Perm.additional_urls existing_permission in
      let new_additional_urls := current_additional_urls in
      new_additional_urls <-
        (match add_url with
         | Some (ur :: rest) =>
             add_urls url current_additional_urls (ur :: rest) new_additional_urls
         | _ => ret new_additional_urls
         end) ;;
      new_additional_urls <-
        (match remove_url with
         | Some (ur :: rest) =>
             remove_urls url current_additional_urls (ur :: rest) ;;
             ret (filter (not_in_removed (ur :: rest)) new_additional_urls)
         | _ => ret new_additional_urls
         end) ;;
      let auth_header := match auth_header with
                         | None => Perm.auth_header existing_permission
                         | Some b => b
                         end in
      let url := if clear_urls then None else url in
      let new_additional_urls := if clear_urls then [] else new_additional_urls in
      let new_additional_urls := Py.set_opt new_additional_urls in
      emit (RelatedTo "app" (app_of permission)) ;;
      emit OperationStart ;;
      try_except
        (ldap_update ("cn=" +++ permission +++ ",ou=permission")
           [("URL", match url with Some u => [Some u] | None => [] end);
            ("additionalUrls", new_additional_urls);
            ("authHeader", [Some (Py.str_upper_of_bool auth_header)])])
        (fun _ => raise (YunohostError "permission_update_failed" permission)) ;;
      when sync_perm permission_sync_to_user ;;
      emit (Debug "permission_updated") ;;
      permissions <- user_permission_list false true ;;
      lift (lookup permissions permission)
  end.

(** *** [permission_create] (lines 235-322) *)

(** [ldap.get_conflict({'cn': permission}, base_dn='ou=permission,...')] *)
Definition ldap_get_conflict (permission : string) : M bool :=
  fun s => (Ok (existsb (fun e => String.eqb (cn e) permission) (ldap s)), s).

(** Modelled from the spec: [ldap.add(dn, attr_dict)].  Every call is
    recorded; it raises when the directory refuses it or already has the
    entry; otherwise the entry is appended. *)
Definition ldap_add (dn : string) (attr_dict : list (string * list string)) : M unit :=
  fun s =>
    let s' := {| ldap := ldap s;
                 trace := trace s ++ [LdapAdd dn attr_dict];
                 rand_calls := rand_calls s |} in
    let new_entry := {| cn := hd EmptyString (match Py.get attr_dict "cn" with
                                              | Some vs => vs
                                              | None => []
                                              end);
                        attributes := remove_key attr_dict "cn" |} in
    if ldap_refuses E (ldap s) dn (map (fun kv => (fst kv, map Some (snd kv))) attr_dict)
       || existsb (has_dn dn) (ldap s)
       || negb (has_dn dn new_entry)
    then (Raise (LdapError dn), s')
    else (Ok tt,
          {| ldap := ldap s ++ [new_entry];
             trace := trace s';
             rand_calls := rand_calls s |}).

(** [random.randint(200, 99999)]: the next sample of the environment. *)
Definition random_randint : M Z :=
  fun s =>
    (Ok (randint E (rand_calls s)),
     {| ldap := ldap s; trace := trace s; rand_calls := S (rand_calls s) |}).

(** The loop of lines 281-284; [fuel] bounds the number of iterations. *)
Fixpoint random_gid (fuel : nat) : M string :=
  match fuel with
  | O => raise OutOfFuel
  | S fuel' =>
      n <- random_randint ;;
      let gid := Py.str_of_int n in
      let uid_guid_found :=
        negb (Py.value_mem (Py.Str gid) (map Py.Int (all_gid E))) in
      if uid_guid_found then ret gid else random_gid fuel'
  end.

Definition permission_create (fuel : nat) (permission : string) (allowed : Py.arg)
  (url : option string) (additional_urls : option (list string)) (auth_header : bool)
  (label : option string) (show_tile protected : bool) (sync_perm : bool)
  : M Perm.t :=
  let permission := main_by_default permission in
  conflict <- ldap_get_conflict permission ;;
  if conflict then raise (YunohostError "permission_already_exist" permission)
  else
    gid <- random_gid fuel ;;
    let attr_dict :=
      [("objectClass", ["top"; "permissionYnh"; "posixGroup"]);
       ("cn", [permission]);
       ("gidNumber", [gid]);
       ("authHeader", ["TRUE"]);
       ("label", [permission]);
       ("showTile", ["FALSE"]);
       ("isProtected", ["FALSE"])] in
    let allowed := match allowed with
                   | Py.ArgNone => Py.ArgNone
                   | _ => Py.ArgList (Py.as_list allowed)
                   end in
    for_each (Py.as_list allowed)
      (fun group =>
         when (negb (Py.mem group (map fst (groups E))))
           (raise (YunohostError "group_unknown" group))) ;;
    emit (RelatedTo "app" (app_of permission)) ;;
    emit OperationStart ;;
    try_except
      (ldap_add ("cn=" +++ permission +++ ",ou=permission") attr_dict)
      (fun _ => raise (YunohostError "permission_creation_failed" permission)) ;;
    new_permission <-
      _update_ldap_group_permission permission allowed label
        (Some show_tile) (Some protected) false ;;
    _ <- permission_url permission url additional_urls None (Some auth_header)
           false sync_perm ;;
    emit (Debug "permission_created") ;;
    ret new_permission.

End WithEnv.


(** ** Derived notions used in the statements *)

(** A permission is synchronized when its stored [corresponding_users] is,
    as a set, what line 467 recomputes from the members of its allowed
    groups. *)
Definition synchronized (E : env) (permission_infos : Perm.t) : bool :=
  match members_of E (Perm.allowed permission_infos) with
  | Ok users =>
      Py.set_eqb (Py.set (Perm.corresponding_users permission_infos)) (Py.set users)
  | Raise _ => false
  end.

(** What a synchronization pass does after its loop (lines 484-490). *)
Definition sync_epilogue : list event :=
  [Debug "The permission database has been resynchronized";
   AppSsowatconf;
   OsSystem "nscd --invalidate=passwd";
   OsSystem "nscd --invalidate=group"].

(** [a and "visitors" in a] *)
Definition mentions_visitors (a : Py.arg) : bool :=
  Py.truthy a && Py.arg_contains a "visitors".

(** The calls of a hook recorded in a trace. *)
Definition hook_calls (name : string) (events : list event) : list event :=
  filter (fun ev => match ev with
                    | HookCallback n _ => String.eqb n name
                    | _ => false
                    end) events.

(** The directory writes recorded in a trace. *)
Definition ldap_writes (events : list event) : list event :=
  filter (fun ev => match ev with
                    | LdapUpdate _ _ | LdapAdd _ _ => true
                    | _ => false
                    end) events.

(** The groups allowed for a permission, as stored in the directory. *)
Definition stored_allowed (s : state) (permission : string) : list string :=
  flat_map (fun e => if String.eqb (cn e) permission
                     then map (fun p => _ldap_path_extract p "cn") (attr e "groupPermission")
                     else []) (ldap s).

(** ** Scenarios *)

Definition group_dn (g : string) : string := "cn=" +++ g +++ ",ou=groups,dc=yunohost,dc=org".
Definition user_dn (u : string) : string := "uid=" +++ u +++ ",ou=users,dc=yunohost,dc=org".

(** A permission entry as [permission_create] leaves it, without urls. *)
Definition permission_entry (name : string) (allowed users : list string)
  (is_protected : bool) : entry :=
  {| cn := name;
     attributes :=
       [("objectClass", ["top"; "permissionYnh"; "posixGroup"]);
        ("gidNumber", ["4242"]);
        ("groupPermission", map group_dn allowed);
        ("inheritPermission", map user_dn users);
        ("memberUid", users);
        ("authHeader", ["TRUE"]);
        ("label", [name]);
        ("showTile", ["FALSE"]);
        ("isProtected", [Py.str_upper_of_bool is_protected])] |}.

(** Two users, the two special groups and two ordinary groups; one app
    installed at [example.org/myapp]; a directory that accepts every write
    but those listed in [refused]; a path checker that accepts every path as
    it is. *)
Definition demo_env (refused : list string) (taken_gids : list Z) : env :=
  {| groups := [("all_users", ["alice"; "bob"]); ("visitors", []);
                ("admins", ["alice"]); ("myvisitors", ["bob"])];
     app_settings := [("myapp", "example.org/myapp")];
     all_gid := taken_gids;
     randint := fun n => (200 + Z.of_nat n)%Z;
     ldap_refuses := fun _ dn _ => Py.mem dn refused;
     _check_and_normalize_permission_path := fun u => Ok u |}.

(** A catalog record with the given allowed groups and users. *)
Definition access_record (allowed users : list string) : Perm.t :=
  {| Perm.allowed := allowed; Perm.corresponding_users := users;
     Perm.auth_header := true; Perm.label := None; Perm.show_tile := false;
     Perm.protected := false; Perm.url := None; Perm.additional_urls := [None] |}.

Definition state_of (entries : list entry) : state :=
  {| ldap := entries; trace := []; rand_calls := 0 |}.

(** Every permission is synchronized. *)
Definition synced_state : state :=
  state_of [permission_entry "myapp.main" ["admins"] ["alice"] false;
            permission_entry "mail.main" ["all_users"] ["alice"; "bob"] true;
            permission_entry "sftp.main" ["admins"] ["alice"] false].

(** Two permissions are stale: [admins] and [myvisitors] got their access
    but the inherited users were not recomputed yet. *)
Definition stale_state : state :=
  state_of [permission_entry "myapp.main" ["admins"] [] false;
            permission_entry "myapp.editors" ["myvisitors"] [] false].


(** A permission entry with a main url and additional urls. *)
Definition with_urls (e : entry) (url : string) (additional_urls : list string) : entry :=
  {| cn := cn e;
     attributes := attributes e ++ [("URL", [url]); ("additionalUrls", additional_urls)] |}.

Definition url_state : state :=
  state_of [with_urls (permission_entry "myapp.main" ["admins"] ["alice"] false)
              "/" ["/old"]].

Definition reset_once : result (option Perm.t) * state :=
  user_permission_reset (demo_env [] []) "myapp" false synced_state.

Definition reset_twice : result (option Perm.t) * state :=
  user_permission_reset (demo_env [] []) "myapp" false (snd reset_once).

Definition reset_once_with_sync : result (option Perm.t) * state :=
  user_permission_reset (demo_env [] []) "myapp" true synced_state.

(** [permission_url("myapp", add_url=["/api"], sync_perm=False)] *)
Definition add_api : result Perm.t * state :=
  permission_url (demo_env [] []) "myapp" None (Some ["/api"]) None None false false
    url_state.

(** [permission_url("myapp", url="/main", add_url=["/api"], sync_perm=False)] *)
Definition add_api_with_main : result Perm.t * state :=
  permission_url (demo_env [] []) "myapp" (Some "/main") (Some ["/api"]) None None
    false false url_state.

(** [permission_create("myapp.editors", allowed=["admins"], sync_perm=False)]
    on a system where group id 200 is taken and the random source yields 200
    first. *)
Definition create_editors : result Perm.t * state :=
  permission_create (demo_env [] [200%Z]) 10 "myapp.editors" (Py.ArgList ["admins"])
    None None true None false true false synced_state.

(** A non-empty name in which [visitors] does not occur as a proper
    substring. *)
Definition plain_name (g : string) : bool :=
  negb (String.eqb g EmptyString)
  && Bool.eqb (Py.contains g "visitors") (String.eqb g "visitors").

(** A directory that refuses every write to [myapp.main]. *)
Definition refusing_env : env := demo_env ["cn=myapp.main,ou=permission"] [].

(** A synchronization pass over the stale directory, with the write for
    [myapp.main] refused and with every write accepted. *)
Definition refused_pass : result unit * state :=
  permission_sync_to_user refusing_env stale_state.

Definition accepted_pass : result unit * state :=
  permission_sync_to_user (demo_env [] []) stale_state.

(** The catalog of a state, with raw paths. *)
Definition catalog (E : env) (s : state) : list (string * Perm.t) :=
  match read_permissions E false false (ldap s) [] with
  | Ok permissions => permissions
  | Raise _ => []
  end.

(** The values of an attribute of a stored permission. *)
Definition stored (s : state) (permission k : string) : list string :=
  flat_map (fun e => if String.eqb (cn e) permission then attr e k else []) (ldap s).

(** ** The rest of the module *)

(** [s.endswith(p)] *)
Fixpoint endswith (s p : string) : bool :=
  String.eqb s p ||
  match s with
  | EmptyString => false
  | String _ s' => endswith s' p
  end.

(** Modelled from the spec: [ldap.remove(dn)].  It raises when the directory
    refuses it or has no such entry, and then changes nothing; otherwise the
    entry is gone.  (The removal shows in the directory, not in the trace.) *)
Definition ldap_remove (E : env) (dn : string) : M unit :=
  fun s =>
    if ldap_refuses E (ldap s) dn [] || negb (existsb (has_dn dn) (ldap s))
    then (Raise (LdapError dn), s)
    else (Ok tt,
          {| ldap := filter (fun e => negb (has_dn dn e)) (ldap s);
             trace := trace s;
             rand_calls := rand_calls s |}).

(** *** [permission_delete] (lines 407-444) *)
Definition permission_delete (E : env) (permission : string) (force sync_perm : bool)
  : M unit :=
  let permission := main_by_default permission in
  if endswith permission ".main" && negb force
  then raise (YunohostError "permission_cannot_remove_main" "")
  else
    permissions <- user_permission_list E false true ;;
    match Py.get permissions permission with
    | None => raise (YunohostError "permission_not_found" permission)
    | Some existing_permission =>
        emit (RelatedTo "app" (app_of permission)) ;;
        emit OperationStart ;;
        try_except
          (ldap_remove E ("cn=" +++ permission +++ ",ou=permission"))
          (fun _ => raise (YunohostError "permission_deletion_failed" permission)) ;;
        when sync_perm (permission_sync_to_user E) ;;
        emit (Debug "permission_deleted")
    end.

(** *** [user_permission_list] (lines 48-102) with all its flags *)

(** One value of the returned dict: only ["allowed"] without [full]. *)
Inductive permission_view : Type :=
| AllowedOnly (allowed : list string)
| Detailed (infos : Perm.t).

(** What the function returns under ['permissions']: the keys with [short],
    the dict otherwise. *)
Inductive listing : Type :=
| Keys (names : list string)
| Permissions (permissions : list (string * permission_view)).

(** The body of the loop of lines 76-97 for one directory entry. *)
Definition read_view (E : env) (full full_path : bool) (infos : entry)
  : result permission_view :=
  if full
  then rbind (read_permission E full_path infos) (fun p => Ok (Detailed p))
  else Ok (AllowedOnly
             (map (fun p => _ldap_path_extract p "cn") (attr infos "groupPermission"))).

Fixpoint read_views (E : env) (full ignore_system_perms full_path : bool)
  (permissions_infos : list entry) (permissions : list (string * permission_view))
  : result (list (string * permission_view)) :=
  match permissions_infos with
  | [] => Ok permissions
  | infos :: rest =>
      let name := cn infos in
      if ignore_system_perms && Py.mem (app_of name) SYSTEM_PERMS
      then read_views E full ignore_system_perms full_path rest permissions
      else rbind (read_view E full full_path infos)
             (fun v => read_views E full ignore_system_perms full_path rest
                         (Py.setitem permissions name v))
  end.

Definition user_permission_list_flags (E : env)
  (short full ignore_system_perms full_path : bool) (s : state) : result listing :=
  rbind (read_views E full ignore_system_perms full_path (ldap s) [])
    (fun permissions =>
       if short then Ok (Keys (map fst permissions))
       else Ok (Permissions permissions)).

(** The allowed groups shown by a view. *)
Definition view_allowed (v : permission_view) : list string :=
  match v with
  | AllowedOnly allowed => allowed
  | Detailed infos => Perm.allowed infos
  end.

(** A name without a comma: the only names a directory path can carry. *)
Definition no_comma (name : string) : bool := negb (Py.contains name ",").

(** The common shape of the loops [read_permissions] and [read_views]:
    entries are read in order with [read], system permissions are skipped on
    demand and each value is stored under the entry's name. *)
Fixpoint read_with {V : Type} (read : entry -> result V) (ignore_system_perms : bool)
  (permissions_infos : list entry) (permissions : list (string * V))
  : result (list (string * V)) :=
  match permissions_infos with
  | [] => Ok permissions
  | infos :: rest =>
      if ignore_system_perms && Py.mem (app_of (cn infos)) SYSTEM_PERMS
      then read_with read ignore_system_perms rest permissions
      else rbind (read infos)
             (fun v => read_with read ignore_system_perms rest
                         (Py.setitem permissions (cn infos) v))
  end.

(** The record read from an entry when paths are left raw (lines 84-97 with
    [full_path=False]). *)
Definition raw_infos (infos : entry) : Perm.t :=
  {| Perm.allowed :=
       map (fun p => _ldap_path_extract p "cn") (attr infos "groupPermission");
     Perm.corresponding_users :=
       map (fun p => _ldap_path_extract p "uid") (attr infos "inheritPermission");
     Perm.auth_header := read_flag (attr infos "authHeader");
     Perm.label := first_or_none (attr infos "label");
     Perm.show_tile := read_flag (attr infos "showTile");
     Perm.protected := read_flag (attr infos "isProtected");
     Perm.url := first_or_none (attr infos "URL");
     Perm.additional_urls := values_or_none (attr infos "additionalUrls") |}.

(** The entry a synchronization pass leaves in place of [e]. *)
Definition sync_entry (E : env) (e : entry) : entry :=
  match members_of E (Perm.allowed (raw_infos e)) with
  | Ok users =>
      if Py.set_eqb (Py.set (Perm.corresponding_users (raw_infos e))) (Py.set users)
      then e
      else {| cn := cn e;
              attributes := apply_delta (attributes e) (new_inherited_perms (Py.set users)) |}
  | Raise _ => e
  end.

(** The names a listing shows. *)
Definition listing_names (l : listing) : list string :=
  match l with
  | Keys names => names
  | Permissions permissions => map fst permissions
  end.

(** A directory with a system permission, an app permission and a
    sub-permission with a relative url. *)
Definition mixed_state : state :=
  state_of [permission_entry "mail.main" ["all_users"] ["alice"; "bob"] true;
            with_urls (permission_entry "myapp.main" ["admins"] ["alice"] false)
              "/" ["/old"];
            permission_entry "myapp.editors" ["myvisitors"] ["bob"] false].

(** Deleting a sub-permission of the mixed directory, with a pass of the
    synchronizer. *)
Definition delete_editors : result unit * state :=
  permission_delete (demo_env [] []) "myapp.editors" false true mixed_state.

(** [a] when it is true, nothing otherwise: what the [if add:] and
    [if remove:] blocks of lines 150-169 iterate over. *)
Definition effective (a : Py.arg) : list string :=
  if Py.truthy a then Py.as_list a else [].

(** The allowed list computed at lines 147-169 from the current one. *)
Definition new_allowed_groups (current_allowed_groups : list string) (add remove : Py.arg)
  : list string :=
  filter (fun g => negb (Py.mem g (effective remove)))
    (current_allowed_groups
     ++ filter (fun g => negb (Py.mem g current_allowed_groups)) (effective add)).

(** A group the group directory does not know. *)
Definition unknown_group (E : env) (group : string) : bool :=
  negb (Py.mem group (map fst (groups E))).

(** Creating a sub-permission in the mixed directory. *)
Definition create_viewers : result Perm.t * state :=
  permission_create (demo_env [] []) 1 "myapp.viewers" (Py.ArgStr "visitors")
    (Some "/view") None true (Some "Viewers") true false true mixed_state.

(** A directory whose second permission allows a group that the group
    directory does not know. *)
Definition orphan_state : state :=
  state_of [permission_entry "myapp.main" ["admins"] [] false;
            permission_entry "myapp.editors" ["visitors"; "ghosts"] [] false;
            permission_entry "mail.main" ["all_users"] [] true].

(** The main url after lines 356-359: the stored one when none is given,
    the checked one otherwise. *)
Definition resolved_url (E : env) (url : option string) (existing_permission : Perm.t)
  : result (option string) :=
  match url with
  | None => Ok (Perm.url existing_permission)
  | Some u => rbind (_check_and_normalize_permission_path E u) (fun checked => Ok (Some checked))
  end.

(** [remove_url] when it is true, nothing otherwise. *)
Definition effective_urls (remove_url : option (list string)) : list string :=
  match remove_url with
  | Some l => l
  | None => []
  end.

(** * Properties *)

(** ** Sets and lists *)

Lemma mem_In (x : string) (l : list string) : Py.mem x l = true <-> In x l.
Proof.
  unfold Py.mem. rewrite existsb_exists. split.
  - intros [y [Hy Heq]]. apply String.eqb_eq in Heq. now subst.
  - intros H. exists x. split; [assumption | apply String.eqb_refl].
Qed.

Lemma mem_false (x : string) (l : list string) : Py.mem x l = false <-> ~ In x l.
Proof.
  rewrite <- mem_In. destruct (Py.mem x l); split; congruence.
Qed.

Lemma set_In (x : string) (l : list string) : In x (Py.set l) <-> In x l.
Proof. unfold Py.set. apply nodup_In. Qed.

Lemma diff_In (x : string) (a b : list string) :
  In x (Py.diff a b) <-> In x a /\ ~ In x b.
Proof.
  unfold Py.diff. rewrite filter_In, negb_true_iff, mem_false. reflexivity.
Qed.

Lemma set_eqb_spec (a b : list string) :
  Py.set_eqb a b = true <-> (forall x, In x a <-> In x b).
Proof.
  unfold Py.set_eqb. rewrite andb_true_iff, !forallb_forall. split.
  - intros [Hab Hba] x. split; intros Hx.
    + apply mem_In, Hab, Hx.
    + apply mem_In, Hba, Hx.
  - intros H. split; intros x Hx; apply mem_In, H, Hx.
Qed.

(** ** The recomputed membership is the union of the allowed groups *)

Lemma members_of_In (E : env) (allowed users : list string) :
  members_of E allowed = Ok users ->
  forall u, In u users <->
            exists group members,
              In group allowed /\ Py.get (groups E) group = Some members /\ In u members.
Proof.
  revert users. induction allowed as [|g rest IH]; simpl; intros users H u.
  - injection H as <-. split; [intros [] | intros (? & ? & [] & _)].
  - destruct (Py.get (groups E) g) as [members|] eqn:Hg; [|discriminate].
    destruct (members_of E rest) as [users'|] eqn:Hrest; [|discriminate].
    simpl in H. injection H as <-. rewrite in_app_iff, (IH users' eq_refl). split.
    + intros [Hu | (g' & m' & Hin & Hget & Hu)].
      * exists g, members. auto.
      * exists g', m'. auto.
    + intros (g' & m' & [<- | Hin] & Hget & Hu).
      * left. congruence.
      * right. exists g', m'. auto.
Qed.

Lemma members_of_defined (E : env) (allowed : list string) :
  (forall group, In group allowed -> Py.get (groups E) group <> None) ->
  exists users, members_of E allowed = Ok users.
Proof.
  induction allowed as [|g rest IH]; simpl; intros H.
  - eauto.
  - destruct (Py.get (groups E) g) as [members|] eqn:Hg.
    + destruct IH as [users ->]; [intros; apply H; auto|]. simpl. eauto.
    + exfalso. apply (H g); auto.
Qed.

(** [synchronized] says what it is meant to say: every allowed group exists
    and the stored users are exactly the members of the allowed groups. *)
Lemma synchronized_spec (E : env) (permission_infos : Perm.t) :
  (forall group, In group (Perm.allowed permission_infos) ->
                 Py.get (groups E) group <> None) ->
  (forall u, In u (Perm.corresponding_users permission_infos) <->
             exists group members,
               In group (Perm.allowed permission_infos)
               /\ Py.get (groups E) group = Some members /\ In u members) ->
  synchronized E permission_infos = true.
Proof.
  intros Hdef Hsame. unfold synchronized.
  destruct (members_of_defined E _ Hdef) as [users Husers]. rewrite Husers.
  apply set_eqb_spec. intros x.
  rewrite !set_In, Hsame. symmetry. apply members_of_In; assumption.
Qed.

(** ** Loops *)

Lemma for_each_app {A : Type} (l1 l2 : list A) (body : A -> M unit) (s : state) :
  for_each (l1 ++ l2) body s =
  match for_each l1 body s with
  | (Ok _, s1) => for_each l2 body s1
  | (Raise e, s1) => (Raise e, s1)
  end.
Proof.
  revert s. induction l1 as [|x l1 IH]; intros s; simpl.
  - reflexivity.
  - unfold bind. destruct (body x s) as [[[]|e] s1]; [apply IH | reflexivity].
Qed.

(** Reading the catalog with raw paths never raises. *)
Lemma read_permissions_raw (E : env) (ignore_system_perms : bool)
  (permissions_infos : list entry) (permissions : list (string * Perm.t)) :
  exists result,
    read_permissions E ignore_system_perms false permissions_infos permissions = Ok result.
Proof.
  revert permissions. induction permissions_infos as [|infos rest IH]; intros permissions.
  - simpl. eauto.
  - simpl. destruct (ignore_system_perms && _); [apply IH|].
    unfold read_permission. simpl. apply IH.
Qed.

(** ** The synchronizer *)

Lemma sync_permission_skip (E : env) (name : string) (permission_infos : Perm.t)
  (s : state) :
  synchronized E permission_infos = true ->
  sync_permission E (name, permission_infos) s = (Ok tt, s).
Proof.
  unfold synchronized, sync_permission, bind, lift. intros H.
  destruct (members_of E (Perm.allowed permission_infos)) as [users|]; [|discriminate].
  rewrite H. reflexivity.
Qed.

Lemma sync_loop_skip (E : env) (permissions : list (string * Perm.t)) (s : state) :
  forallb (fun item => synchronized E (snd item)) permissions = true ->
  for_each permissions (sync_permission E) s = (Ok tt, s).
Proof.
  induction permissions as [|[name infos] rest IH]; cbn [for_each forallb snd]; intros H.
  - reflexivity.
  - apply andb_true_iff in H as [H1 H2]. unfold bind.
    rewrite (sync_permission_skip E name infos s H1). apply IH, H2.
Qed.

Lemma ldap_writes_app (t1 t2 : list event) :
  ldap_writes (t1 ++ t2) = ldap_writes t1 ++ ldap_writes t2.
Proof. unfold ldap_writes. apply filter_app. Qed.

(** C3. A permission whose stored [corresponding_users] is already the
    recomputed membership set is skipped: the loop body returns with the
    state, and so the directory and the record of writes, untouched,
    wherever in a pass it is met.  When this holds for every permission of
    the catalog, a whole synchronization pass succeeds, leaves the directory
    as it was and adds to the trace nothing but its closing steps: it issues
    no write. *)
Theorem sync_skips_unchanged_permissions (E : env) (s s1 : state) (name : string)
  (permission_infos : Perm.t) (permissions : list (string * Perm.t)) :
  synchronized E permission_infos = true ->
  read_permissions E false false (ldap s) [] = Ok permissions ->
  forallb (fun item => synchronized E (snd item)) permissions = true ->
  sync_permission E (name, permission_infos) s1 = (Ok tt, s1)
  /\ permission_sync_to_user E s
     = (Ok tt, {| ldap := ldap s;
                  trace := trace s ++ sync_epilogue;
                  rand_calls := rand_calls s |})
  /\ ldap_writes (trace (snd (permission_sync_to_user E s))) = ldap_writes (trace s).
Proof.
  intros Hone Hread Hall.
  assert (Hrun : permission_sync_to_user E s
                 = (Ok tt, {| ldap := ldap s;
                              trace := trace s ++ sync_epilogue;
                              rand_calls := rand_calls s |})).
  { unfold permission_sync_to_user, user_permission_list, bind at 1.
    rewrite Hread. unfold bind at 1. rewrite (sync_loop_skip E permissions s Hall).
    unfold bind, emit, sync_epilogue. simpl.
    rewrite <- !app_assoc. reflexivity. }
  split; [|split].
  - apply sync_permission_skip, Hone.
  - exact Hrun.
  - rewrite Hrun. simpl. rewrite ldap_writes_app. simpl. apply app_nil_r.
Qed.

Lemma sync_skips_unchanged_permissions_witness :
  sync_permission (demo_env [] []) ("mail.main",
      {| Perm.allowed := ["all_users"]; Perm.corresponding_users := ["bob"; "alice"];
         Perm.auth_header := true; Perm.label := None; Perm.show_tile := false;
         Perm.protected := true; Perm.url := None; Perm.additional_urls := [None] |})
    stale_state
  = (Ok tt, stale_state)
  /\ permission_sync_to_user (demo_env [] []) synced_state
     = (Ok tt, {| ldap := ldap synced_state;
                  trace := trace synced_state ++ sync_epilogue;
                  rand_calls := rand_calls synced_state |})
  /\ ldap_writes (trace (snd (permission_sync_to_user (demo_env [] []) synced_state)))
     = ldap_writes (trace synced_state).
Proof.
  eapply (sync_skips_unchanged_permissions (demo_env [] []) synced_state stale_state).
  - reflexivity.
  - reflexivity.
  - reflexivity.
Defined.

(** A permission that is out of date gets exactly one write; when the
    directory raises on it, the loop body raises [permission_update_failed]
    for that permission. *)
Lemma sync_permission_failed_write (E : env) (name : string) (permission_infos : Perm.t)
  (users : list string) (s : state) :
  members_of E (Perm.allowed permission_infos) = Ok users ->
  Py.set_eqb (Py.set (Perm.corresponding_users permission_infos)) (Py.set users) = false ->
  ldap_refuses E (ldap s) ("cn=" +++ name +++ ",ou=permission")
    (new_inherited_perms (Py.set users))
  || negb (existsb (has_dn ("cn=" +++ name +++ ",ou=permission")) (ldap s)) = true ->
  sync_permission E (name, permission_infos) s
  = (Raise (YunohostError "permission_update_failed" name),
     {| ldap := ldap s;
        trace := trace s ++ [LdapUpdate ("cn=" +++ name +++ ",ou=permission")
                               (new_inherited_perms (Py.set users))];
        rand_calls := rand_calls s |}).
Proof.
  intros Husers Hdiff Hfail.
  unfold sync_permission, bind, lift. rewrite Husers, Hdiff.
  unfold try_except, ldap_update. rewrite Hfail. reflexivity.
Qed.

(** C8 (as amended). When, during a synchronization pass, the write for one
    out-of-date permission fails, the pass raises [permission_update_failed]
    for that permission and stops there: the final state is the state reached
    after the permissions that came before it, plus the one refused write.
    The permissions that come after it are neither examined nor written, and
    the closing steps of the pass are not run. *)
Theorem sync_stops_at_failed_write (E : env) (s s1 : state)
  (before after : list (string * Perm.t)) (name : string) (permission_infos : Perm.t)
  (users : list string) :
  read_permissions E false false (ldap s) [] = Ok (before ++ (name, permission_infos) :: after) ->
  for_each before (sync_permission E) s = (Ok tt, s1) ->
  members_of E (Perm.allowed permission_infos) = Ok users ->
  Py.set_eqb (Py.set (Perm.corresponding_users permission_infos)) (Py.set users) = false ->
  ldap_refuses E (ldap s1) ("cn=" +++ name +++ ",ou=permission")
    (new_inherited_perms (Py.set users))
  || negb (existsb (has_dn ("cn=" +++ name +++ ",ou=permission")) (ldap s1)) = true ->
  permission_sync_to_user E s
  = (Raise (YunohostError "permission_update_failed" name),
     {| ldap := ldap s1;
        trace := trace s1 ++ [LdapUpdate ("cn=" +++ name +++ ",ou=permission")
                                (new_inherited_perms (Py.set users))];
        rand_calls := rand_calls s1 |}).
Proof.
  intros Hread Hbefore Husers Hdiff Hfail.
  unfold permission_sync_to_user, user_permission_list, bind at 1.
  rewrite Hread. unfold bind at 1.
  rewrite for_each_app, Hbefore. cbn [for_each]. unfold bind at 1.
  rewrite (sync_permission_failed_write E name permission_infos users s1 Husers Hdiff Hfail).
  reflexivity.
Qed.

Lemma sync_stops_at_failed_write_witness :
  permission_sync_to_user (demo_env ["cn=myapp.main,ou=permission"] []) stale_state
  = (Raise (YunohostError "permission_update_failed" "myapp.main"),
     {| ldap := ldap stale_state;
        trace := trace stale_state
                 ++ [LdapUpdate ("cn=" +++ "myapp.main" +++ ",ou=permission")
                       (new_inherited_perms (Py.set ["alice"]))];
        rand_calls := rand_calls stale_state |}).
Proof.
  eapply (sync_stops_at_failed_write (demo_env ["cn=myapp.main,ou=permission"] [])
            stale_state stale_state []
            [("myapp.editors",
               {| Perm.allowed := ["myvisitors"]; Perm.corresponding_users := [];
                  Perm.auth_header := true; Perm.label := Some "myapp.editors";
                  Perm.show_tile := false; Perm.protected := false;
                  Perm.url := None; Perm.additional_urls := [None] |})]
            "myapp.main"
            {| Perm.allowed := ["admins"]; Perm.corresponding_users := [];
               Perm.auth_header := true; Perm.label := Some "myapp.main";
               Perm.show_tile := false; Perm.protected := false;
               Perm.url := None; Perm.additional_urls := [None] |}).
  - reflexivity.
  - reflexivity.
  - reflexivity.
  - reflexivity.
  - reflexivity.
Defined.

(** C8 (as stated) fails.  With two out-of-date permissions and a directory
    that refuses the write for the first, the pass raises for the first and
    never reaches the second: the directory is unchanged, the only write
    attempted is the refused one, and [myapp.editors] is still out of date,
    whereas the same pass on a directory that accepts every write brings it
    up to date. *)
Lemma sync_failed_write_aborts_pass :
  fst refused_pass = Raise (YunohostError "permission_update_failed" "myapp.main")
  /\ ldap (snd refused_pass) = ldap stale_state
  /\ ldap_writes (trace (snd refused_pass))
     = [LdapUpdate "cn=myapp.main,ou=permission" (new_inherited_perms ["alice"])]
  /\ (exists infos,
        Py.get (catalog refusing_env (snd refused_pass)) "myapp.editors" = Some infos
        /\ synchronized refusing_env infos = false)
  /\ fst accepted_pass = Ok tt
  /\ (exists infos,
        Py.get (catalog (demo_env [] []) (snd accepted_pass)) "myapp.editors" = Some infos
        /\ synchronized (demo_env [] []) infos = true).
Proof.
  split; [reflexivity|].
  split; [reflexivity|].
  split; [reflexivity|].
  split; [vm_compute; eexists; split; reflexivity|].
  split; [reflexivity|].
  vm_compute; eexists; split; reflexivity.
Qed.

(** ** The access-change callbacks *)

(** C6. From the record before and the record after an operation, the
    callbacks compute: added users = users after minus users before; removed
    users = users before minus users after; added groups = (allowed after
    minus allowed before) minus added users; removed groups = (allowed
    before minus allowed after) minus removed users.  [post_app_addaccess] is
    called once when added users or added groups is not empty and not at all
    otherwise; [post_app_removeaccess] likewise for the removed sets; no other
    event is produced.  With users [{u1,u2}] before and [{u2,u3}] after, the
    added users are [{u3}] and the removed users [{u1}]. *)
Theorem access_change_diff (app sub_permission : string)
  (existing_permission new_permission : Perm.t) :
  (forall u, In u (effectively_added_users existing_permission new_permission) <->
             In u (Perm.corresponding_users new_permission)
             /\ ~ In u (Perm.corresponding_users existing_permission))
  /\ (forall u, In u (effectively_removed_users existing_permission new_permission) <->
                In u (Perm.corresponding_users existing_permission)
                /\ ~ In u (Perm.corresponding_users new_permission))
  /\ (forall g, In g (effectively_added_group existing_permission new_permission) <->
                (In g (Perm.allowed new_permission)
                 /\ ~ In g (Perm.allowed existing_permission))
                /\ ~ In g (effectively_added_users existing_permission new_permission))
  /\ (forall g, In g (effectively_removed_group existing_permission new_permission) <->
                (In g (Perm.allowed existing_permission)
                 /\ ~ In g (Perm.allowed new_permission))
                /\ ~ In g (effectively_removed_users existing_permission new_permission))
  /\ hook_calls "post_app_addaccess"
       (access_callbacks app sub_permission existing_permission new_permission)
     = (if nonempty (effectively_added_users existing_permission new_permission)
           || nonempty (effectively_added_group existing_permission new_permission)
        then [HookCallback "post_app_addaccess"
                [app;
                 Py.join "," (effectively_added_users existing_permission new_permission);
                 sub_permission;
                 Py.join "," (effectively_added_group existing_permission new_permission)]]
        else [])
  /\ hook_calls "post_app_removeaccess"
       (access_callbacks app sub_permission existing_permission new_permission)
     = (if nonempty (effectively_removed_users existing_permission new_permission)
           || nonempty (effectively_removed_group existing_permission new_permission)
        then [HookCallback "post_app_removeaccess"
                [app;
                 Py.join "," (effectively_removed_users existing_permission new_permission);
                 sub_permission;
                 Py.join "," (effectively_removed_group existing_permission new_permission)]]
        else [])
  /\ access_callbacks app sub_permission existing_permission new_permission
     = hook_calls "post_app_addaccess"
         (access_callbacks app sub_permission existing_permission new_permission)
       ++ hook_calls "post_app_removeaccess"
            (access_callbacks app sub_permission existing_permission new_permission)
  /\ effectively_added_users (access_record ["grpA"] ["u1"; "u2"])
       (access_record ["grpB"] ["u2"; "u3"]) = ["u3"]
  /\ effectively_removed_users (access_record ["grpA"] ["u1"; "u2"])
       (access_record ["grpB"] ["u2"; "u3"]) = ["u1"].
Proof.
  split; [|split; [|split; [|split; [|split; [|split; [|split; [|split]]]]]]].
  - intros u. unfold effectively_added_users. rewrite diff_In, !set_In. reflexivity.
  - intros u. unfold effectively_removed_users. rewrite diff_In, !set_In. reflexivity.
  - intros g. unfold effectively_added_group. rewrite !diff_In, !set_In. reflexivity.
  - intros g. unfold effectively_removed_group. rewrite !diff_In, !set_In. reflexivity.
  - unfold access_callbacks.
    destruct (nonempty _ || nonempty _); destruct (nonempty _ || nonempty _); reflexivity.
  - unfold access_callbacks.
    destruct (nonempty _ || nonempty _); destruct (nonempty _ || nonempty _); reflexivity.
  - unfold access_callbacks.
    destruct (nonempty _ || nonempty _); destruct (nonempty _ || nonempty _); reflexivity.
  - reflexivity.
  - reflexivity.
Qed.

(** In the same example the allowed groups go from [{grpA}] to [{grpB}]: the
    group-level sets are [{grpB}] and [{grpA}], and both hooks carry them. *)
Lemma access_change_example_groups :
  effectively_added_group (access_record ["grpA"] ["u1"; "u2"])
    (access_record ["grpB"] ["u2"; "u3"]) = ["grpB"]
  /\ effectively_removed_group (access_record ["grpA"] ["u1"; "u2"])
       (access_record ["grpB"] ["u2"; "u3"]) = ["grpA"]
  /\ access_callbacks "myapp" "main" (access_record ["grpA"] ["u1"; "u2"])
       (access_record ["grpB"] ["u2"; "u3"])
     = [HookCallback "post_app_addaccess" ["myapp"; "u3"; "main"; "grpB"];
        HookCallback "post_app_removeaccess" ["myapp"; "u1"; "main"; "grpA"]].
Proof. repeat split. Qed.

(** ** Guards of [user_permission_update] *)

Lemma user_permission_list_raw (E : env) (ignore_system_perms : bool) (s : state) :
  exists permissions,
    read_permissions E ignore_system_perms false (ldap s) [] = Ok permissions
    /\ user_permission_list E ignore_system_perms false s = (Ok permissions, s).
Proof.
  destruct (read_permissions_raw E ignore_system_perms (ldap s) []) as [permissions H].
  exists permissions. unfold user_permission_list. now rewrite H.
Qed.

(** Adding [visitors] to a permission of an app listed in [SYSTEM_PERMS] is
    refused with [permission_require_account] before anything else happens,
    whatever the other arguments and whether or not the permission exists. *)
Lemma system_perms_refuse_visitors (E : env) (s : state) (permission : string)
  (add remove : Py.arg) (label : option string) (show_tile protected : option bool)
  (force sync_perm : bool) :
  mentions_visitors add = true ->
  Py.mem (app_of (main_by_default permission)) SYSTEM_PERMS = true ->
  user_permission_update E permission add remove label show_tile protected force sync_perm s
  = (Raise (YunohostError "permission_require_account" (main_by_default permission)), s).
Proof.
  unfold mentions_visitors. intros Hadd Hsys.
  unfold user_permission_update, bind.
  destruct (user_permission_list_raw E false s) as (permissions & _ & ->).
  rewrite Hadd, Hsys. reflexivity.
Qed.

(** C7 (as amended). When the identity is not in the catalog, the update
    fails before any mutation (the state, trace included, is returned as it
    was), for every label, show_tile, protected, force and sync_perm: with
    [permission_require_account] when [visitors] is being added and the app
    is in [SYSTEM_PERMS], and with [permission_not_found] when [visitors] is
    neither among the groups to add nor among the groups to remove. *)
Theorem update_of_missing_permission (E : env) (s : state) (permission : string)
  (add remove : Py.arg) (label : option string) (show_tile protected : option bool)
  (force sync_perm : bool) :
  Py.get (catalog E s) (main_by_default permission) = None ->
  (mentions_visitors add = true
   /\ Py.mem (app_of (main_by_default permission)) SYSTEM_PERMS = true)
  \/ (mentions_visitors add = false /\ mentions_visitors remove = false) ->
  user_permission_update E permission add remove label show_tile protected force sync_perm s
  = (Raise (YunohostError
              (if mentions_visitors add
               then "permission_require_account"
               else "permission_not_found")
              (main_by_default permission)), s).
Proof.
  intros Hmissing [[Hadd Hsys] | [Hadd Hremove]].
  - rewrite Hadd. apply system_perms_refuse_visitors; assumption.
  - rewrite Hadd. unfold mentions_visitors in Hadd, Hremove.
    unfold user_permission_update, bind, catalog in *.
    destruct (user_permission_list_raw E false s) as (permissions & Hread & ->).
    rewrite Hread in Hmissing. rewrite Hadd. cbn [andb].
    unfold lift, protected_guard, visitors_on_protected. rewrite Hadd, Hremove.
    cbn [rbind]. rewrite Hmissing. reflexivity.
Qed.

Lemma update_of_missing_permission_witness :
  user_permission_update (demo_env [] []) "myapp.extra" (Py.ArgList ["admins"])
    (Py.ArgStr "myvisitor") (Some "Extra") None (Some true) false true synced_state
  = (Raise (YunohostError "permission_not_found" "myapp.extra"), synced_state).
Proof.
  apply (update_of_missing_permission (demo_env [] []) synced_state "myapp.extra"
           (Py.ArgList ["admins"]) (Py.ArgStr "myvisitor") (Some "Extra") None (Some true)
           false true).
  - reflexivity.
  - right. split; reflexivity.
Defined.

(** C7 (as stated) fails.  [mail.extra] is not in the catalog, yet adding
    [visitors] to it is answered with [permission_require_account], not with
    [permission_not_found]: the account guard of lines 128-130 comes first. *)
Lemma update_of_missing_system_permission :
  Py.get (catalog (demo_env [] []) synced_state) "mail.extra" = None
  /\ user_permission_update (demo_env [] []) "mail.extra" (Py.ArgList ["visitors"])
       Py.ArgNone None None None false true synced_state
     = (Raise (YunohostError "permission_require_account" "mail.extra"), synced_state)
  /\ fst (user_permission_update (demo_env [] []) "mail.extra" (Py.ArgList ["visitors"])
            Py.ArgNone None None None false true synced_state)
     <> Raise (YunohostError "permission_not_found" "mail.extra").
Proof.
  split; [reflexivity | split; [reflexivity | discriminate]].
Qed.

(** On a missing permission of an ordinary app, adding or removing
    [visitors] reaches [existing_permission["protected"]] with
    [existing_permission] being [None] (lines 133-134 come before the test
    of line 139). *)
Lemma update_of_missing_permission_subscripts_none :
  fst (user_permission_update (demo_env [] []) "myapp.extra" (Py.ArgList ["visitors"])
         Py.ArgNone None None None true true synced_state)
  = Raise (TypeError "'NoneType' object is not subscriptable")
  /\ fst (user_permission_update (demo_env [] []) "myapp.extra" Py.ArgNone
            (Py.ArgList ["visitors"]) None None None true true synced_state)
     = Raise (TypeError "'NoneType' object is not subscriptable").
Proof. split; reflexivity. Qed.

(** C2. [SYSTEM_PERMS] holds [stfp], not [sftp]: adding [visitors] to the
    existing permission [sftp.main] is not refused with
    [permission_require_account]; the update goes through, with or without
    [force], and [visitors] ends up among the stored allowed groups. *)
Theorem sftp_accepts_visitors :
  SYSTEM_PERMS = ["mail"; "xmpp"; "stfp"]
  /\ Py.mem "sftp" SYSTEM_PERMS = false
  /\ (exists new_permission,
        fst (user_permission_update (demo_env [] []) "sftp" (Py.ArgList ["visitors"])
               Py.ArgNone None None None false true synced_state) = Ok new_permission
        /\ Py.mem "visitors" (Perm.allowed new_permission) = true)
  /\ Py.mem "visitors"
       (stored_allowed
          (snd (user_permission_update (demo_env [] []) "sftp" (Py.ArgList ["visitors"])
                  Py.ArgNone None None None false true synced_state)) "sftp.main") = true
  /\ Py.mem "visitors"
       (stored_allowed
          (snd (user_permission_update (demo_env [] []) "sftp" (Py.ArgList ["visitors"])
                  Py.ArgNone None None None true true synced_state)) "sftp.main") = true.
Proof.
  split; [reflexivity|]. split; [reflexivity|].
  split; [eexists; split; reflexivity|]. split; reflexivity.
Qed.

(** ** The trace only grows *)

Definition grows {A : Type} (m : M A) : Prop :=
  forall s, exists t, trace (snd (m s)) = trace s ++ t.

Lemma grows_ret {A : Type} (a : A) : grows (ret a).
Proof. intros s. exists []. simpl. now rewrite app_nil_r. Qed.

Lemma grows_raise {A : Type} (e : exn) : grows (@raise A e).
Proof. intros s. exists []. simpl. now rewrite app_nil_r. Qed.

Lemma grows_lift {A : Type} (r : result A) : grows (lift r).
Proof. intros s. exists []. simpl. now rewrite app_nil_r. Qed.

Lemma grows_emit (ev : event) : grows (emit ev).
Proof. intros s. exists [ev]. reflexivity. Qed.

Lemma grows_bind {A B : Type} (m : M A) (k : A -> M B) :
  grows m -> (forall a, grows (k a)) -> grows (bind m k).
Proof.
  intros Hm Hk s. unfold bind. destruct (Hm s) as [t Ht].
  destruct (m s) as [[a|e] s']; simpl in Ht.
  - destruct (Hk a s') as [t' Ht']. exists (t ++ t').
    now rewrite Ht', Ht, app_assoc.
  - exists t. exact Ht.
Qed.

Lemma grows_try_except {A : Type} (m : M A) (h : exn -> M A) :
  grows m -> (forall e, grows (h e)) -> grows (try_except m h).
Proof.
  intros Hm Hh s. unfold try_except. destruct (Hm s) as [t Ht].
  destruct (m s) as [[a|e] s']; simpl in Ht.
  - exists t. exact Ht.
  - destruct (Hh e s') as [t' Ht']. exists (t ++ t').
    now rewrite Ht', Ht, app_assoc.
Qed.

Lemma grows_for_each {A : Type} (l : list A) (body : A -> M unit) :
  (forall x, grows (body x)) -> grows (for_each l body).
Proof.
  intros Hbody. induction l as [|x l IH]; cbn [for_each].
  - apply grows_ret.
  - apply grows_bind; [apply Hbody | intros _; exact IH].
Qed.

Lemma grows_when (c : bool) (body : M unit) : grows body -> grows (when c body).
Proof. intros H. destruct c; [exact H | apply grows_ret]. Qed.

Lemma grows_ldap_update (E : env) (dn : string) (attr_dict : delta) :
  grows (ldap_update E dn attr_dict).
Proof.
  intros s. exists [LdapUpdate dn attr_dict]. unfold ldap_update.
  destruct (_ || _); reflexivity.
Qed.

Lemma grows_user_permission_list (E : env) (ignore_system_perms full_path : bool) :
  grows (user_permission_list E ignore_system_perms full_path).
Proof. intros s. exists []. simpl. now rewrite app_nil_r. Qed.

Create HintDb grows.
#[local] Hint Resolve grows_ret grows_raise grows_lift grows_emit grows_ldap_update
  grows_user_permission_list : grows.

Ltac grows_step :=
  first [ solve [auto with grows]
        | apply grows_bind; [|intros ?]
        | apply grows_try_except; [|intros ?]
        | apply grows_when ].

Lemma grows_sync_permission (E : env) (item : string * Perm.t) :
  grows (sync_permission E item).
Proof.
  destruct item as [name infos]. unfold sync_permission.
  apply grows_bind; [auto with grows|]. intros users.
  destruct (Py.set_eqb _ _); repeat grows_step.
Qed.

Lemma grows_permission_sync_to_user (E : env) : grows (permission_sync_to_user E).
Proof.
  unfold permission_sync_to_user.
  apply grows_bind; [auto with grows|]. intros permissions.
  apply grows_bind; [apply grows_for_each, grows_sync_permission|]. intros _.
  repeat grows_step.
Qed.

#[local] Hint Resolve grows_permission_sync_to_user : grows.

(** The first thing [_update_ldap_group_permission] does to the outside is the
    write of the new allowed set; for a bare string this set is the set of
    its characters. *)
Lemma update_ldap_group_permission_first_write (E : env) (s : state)
  (permission : string) (allowed : Py.arg) (label : option string)
  (show_tile protected : option bool) (sync_perm : bool) (existing_permission : Perm.t) :
  Py.get (catalog E s) permission = Some existing_permission ->
  allowed <> Py.ArgNone ->
  exists others rest,
    trace (snd (_update_ldap_group_permission E permission allowed label show_tile
                  protected sync_perm s))
    = trace s
      ++ [LdapUpdate ("cn=" +++ permission +++ ",ou=permission")
            (("groupPermission",
               map (fun g => Some ("cn=" +++ g +++ ",ou=groups,dc=yunohost,dc=org"))
                 (Py.set_of_arg allowed)) :: others)]
      ++ rest.
Proof.
  intros Hget Hallowed. unfold catalog in Hget.
  unfold _update_ldap_group_permission. unfold bind at 1.
  destruct (user_permission_list_raw E false s) as (permissions & Hread & ->).
  rewrite Hread in Hget.
  unfold bind at 1. unfold lift at 1. unfold lookup at 1. unfold Py.getitem at 1.
  rewrite Hget.
  replace (match allowed with
           | Py.ArgNone => Py.ArgList (Perm.allowed existing_permission)
           | _ => allowed
           end) with allowed by (destruct allowed; congruence).
  eexists. unfold bind at 1. unfold try_except, ldap_update.
  destruct (_ || _).
  - exists []. reflexivity.
  - match goal with
    | |- context [bind ?m ?k _] => assert (Hrest : grows (bind m k))
    end.
    { apply grows_bind; [apply grows_when; solve [auto with grows]|]. intros _.
      apply grows_bind; [solve [auto with grows]|]. intros new_permissions.
      apply grows_bind; [solve [auto with grows]|]. intros new_permission.
      apply grows_bind; [solve [auto with grows]|]. intros sub_permission.
      apply grows_bind; [apply grows_for_each; solve [auto with grows]|]. intros _.
      solve [auto with grows]. }
    match goal with
    | |- context [bind ?m ?k ?s1] => destruct (Hrest s1) as [rest Hrest']
    end.
    exists rest. rewrite Hrest'. cbn [trace]. rewrite <- app_assoc. reflexivity.
Qed.

(** ** [user_permission_reset] *)

Lemma bind_trace_prefix {A B : Type} (m : M A) (k : A -> M B) (s : state)
  (pre : list event) :
  (forall a, grows (k a)) ->
  (exists rest, trace (snd (m s)) = pre ++ rest) ->
  exists rest, trace (snd (bind m k s)) = pre ++ rest.
Proof.
  intros Hk [rest Hm]. unfold bind. destruct (m s) as [[a|e] s1]; simpl in Hm.
  - destruct (Hk a s1) as [t Ht]. exists (rest ++ t). now rewrite Ht, Hm, app_assoc.
  - exists rest. exact Hm.
Qed.

(** Whatever the directory and the environment, resetting an existing
    permission whose allowed list is not [["all_users"]] hands the
    characters of ["all_users"] to [ldap.update] as the new allowed groups. *)
Lemma reset_writes_characters (E : env) (s : state) (permission : string)
  (sync_perm : bool) (existing_permission : Perm.t) :
  Py.get (catalog E s) (main_by_default permission) = Some existing_permission ->
  Py.list_eqb (Perm.allowed existing_permission) ["all_users"] = false ->
  exists others rest,
    trace (snd (user_permission_reset E permission sync_perm s))
    = (trace s ++ [RelatedTo "app" (app_of (main_by_default permission)); OperationStart])
      ++ [LdapUpdate ("cn=" +++ main_by_default permission +++ ",ou=permission")
            (("groupPermission",
               map (fun g => Some ("cn=" +++ g +++ ",ou=groups,dc=yunohost,dc=org"))
                 (Py.set (Py.chars "all_users"))) :: others)]
      ++ rest.
Proof.
  intros Hget Hdiff.
  unfold user_permission_reset. unfold bind at 1.
  destruct (user_permission_list_raw E false s) as (permissions & Hread & ->).
  assert (Hget' := Hget). unfold catalog in Hget'. rewrite Hread in Hget'.
  rewrite Hget', Hdiff.
  unfold bind at 1. unfold emit at 1. unfold bind at 1. unfold emit at 1.
  match goal with
  | |- context [bind _ _ ?s2] =>
      destruct (update_ldap_group_permission_first_write E s2
                  (main_by_default permission) (Py.ArgStr "all_users") None None None
                  sync_perm existing_permission Hget ltac:(discriminate))
        as (others & rest & Hfirst)
  end.
  exists others.
  match goal with
  | |- exists tail, ?lhs = ?a ++ ?b ++ tail =>
      enough (exists tail', lhs = (a ++ b) ++ tail') as [tail' Htail];
      [exists tail'; rewrite Htail, <- app_assoc; reflexivity|]
  end.
  apply bind_trace_prefix.
  - intros new_permission. apply grows_bind; [|intros _]; auto with grows.
  - exists rest. rewrite Hfirst. cbn [trace]. rewrite <- !app_assoc. reflexivity.
Qed.

(** X21. A permission whose allowed list is exactly [["all_users"]] is left
    alone: the reset only warns, returns nothing, and neither reads further
    nor writes. *)
Lemma reset_of_default_only_warns (E : env) (s : state) (permission : string)
  (sync_perm : bool) (existing_permission : Perm.t) :
  Py.get (catalog E s) (main_by_default permission) = Some existing_permission ->
  Perm.allowed existing_permission = ["all_users"] ->
  user_permission_reset E permission sync_perm s
  = (Ok None, {| ldap := ldap s;
                 trace := trace s ++ [Warning "permission_already_up_to_date" ""];
                 rand_calls := rand_calls s |}).
Proof.
  intros Hget Hallowed. unfold user_permission_reset, bind, catalog in *.
  destruct (user_permission_list_raw E false s) as (permissions & Hread & ->).
  rewrite Hread in Hget. rewrite Hget, Hallowed. reflexivity.
Qed.

(** What [set("all_users")] is. *)
Lemma set_of_all_users :
  forall g, In g (Py.set_of_arg (Py.ArgStr "all_users")) <->
            In g ["a"; "l"; "_"; "u"; "s"; "e"; "r"].
Proof.
  intros g. cbn. intuition.
Qed.

(** C1. Resetting [myapp.main], whose allowed groups are [{admins}], does not
    leave it with [{all_users}]: [_update_ldap_group_permission] receives the
    string ["all_users"] and takes [set] of it, so the seven characters
    [a l _ u s e r] are written as group names, and [all_users] is not among
    the stored groups.  A second reset right after is not the advisory-only
    no-op: the stored list is not [["all_users"]], no
    [permission_already_up_to_date] warning is issued and the directory is
    written again.  With [sync_perm] the characters are written all the same
    and the synchronizer then raises [KeyError] on the group [a]. *)
Theorem reset_stores_the_characters_of_all_users :
  Py.set_eqb (stored_allowed (snd reset_once) "myapp.main")
    ["a"; "l"; "_"; "u"; "s"; "e"; "r"] = true
  /\ Py.mem "all_users" (stored_allowed (snd reset_once) "myapp.main") = false
  /\ (exists new_permission,
        fst reset_once = Ok (Some new_permission)
        /\ Py.set_eqb (Perm.allowed new_permission)
             ["a"; "l"; "_"; "u"; "s"; "e"; "r"] = true)
  /\ (exists new_permission, fst reset_twice = Ok (Some new_permission))
  /\ length (ldap_writes (trace (snd reset_once))) = 1
  /\ length (ldap_writes (trace (snd reset_twice))) = 2
  /\ existsb (fun ev => match ev with
                        | Warning "permission_already_up_to_date" _ => true
                        | _ => false
                        end) (trace (snd reset_twice)) = false
  /\ fst reset_once_with_sync = Raise (KeyError "a")
  /\ Py.set_eqb (stored_allowed (snd reset_once_with_sync) "myapp.main")
       ["a"; "l"; "_"; "u"; "s"; "e"; "r"] = true.
Proof.
  split; [reflexivity|]. split; [reflexivity|].
  split; [eexists; split; reflexivity|].
  split; [eexists; reflexivity|].
  repeat split.
Qed.

(** ** [permission_url] *)

(** C5. An entry of [add_url] that is not yet among the additional urls is
    not what gets appended: line 369 appends the normalized main [url] of the
    permission.  On [myapp.main] with main url [/] and additional urls
    [{/old}], adding [/api] stores [{/old, /}] and [/api] is stored nowhere;
    with a new main url [/main] given in the same call, [/main] is stored as
    an additional url instead of [/api].  An entry that is already present
    only produces a warning. *)
Theorem add_url_appends_the_main_url :
  fst add_api <> Raise (YunohostError "permission_update_failed" "myapp.main")
  /\ Py.mem "/api" (stored (snd add_api) "myapp.main" "additionalUrls") = false
  /\ Py.set_eqb (stored (snd add_api) "myapp.main" "additionalUrls") ["/old"; "/"] = true
  /\ stored (snd add_api) "myapp.main" "URL" = ["/"]
  /\ Py.set_eqb (stored (snd add_api_with_main) "myapp.main" "additionalUrls")
       ["/old"; "/main"] = true
  /\ Py.mem "/api" (stored (snd add_api_with_main) "myapp.main" "additionalUrls") = false
  /\ (exists new_permission,
        permission_url (demo_env [] []) "myapp" None (Some ["/old"]) None None false false
          url_state
        = (Ok new_permission,
           {| ldap := ldap url_state;
              trace := [Warning "additional_urls_already_added" "/";
                        RelatedTo "app" "myapp"; OperationStart;
                        LdapUpdate "cn=myapp.main,ou=permission"
                          [("URL", [Some "/"]); ("additionalUrls", [Some "/old"]);
                           ("authHeader", [Some "TRUE"])];
                        Debug "permission_updated"];
              rand_calls := 0 |})).
Proof.
  split; [discriminate|].
  split; [reflexivity|]. split; [reflexivity|]. split; [reflexivity|].
  split; [reflexivity|]. split; [reflexivity|].
  vm_compute. eexists. reflexivity.
Qed.

(** ** [permission_create] *)

(** A string is never equal to one of the integers of [all_gid]. *)
Lemma str_not_in_ints (gid : string) (gids : list Z) :
  Py.value_mem (Py.Str gid) (map Py.Int gids) = false.
Proof.
  induction gids as [|n gids IH]; [reflexivity | exact IH].
Qed.

Lemma random_gid_first_sample (E : env) (fuel : nat) (s : state) :
  random_gid E (S fuel) s
  = (Ok (Py.str_of_int (randint E (rand_calls s))),
     {| ldap := ldap s; trace := trace s; rand_calls := S (rand_calls s) |}).
Proof.
  cbn [random_gid]. unfold bind, random_randint. rewrite str_not_in_ints. reflexivity.
Qed.

(** C9. The loop of lines 281-284 never samples a second time: [gid] is a
    string and [all_gid] a set of integers, so [gid not in all_gid] holds at
    the first sample whatever the taken ids are, and that sample is returned.
    With the group id 200 taken and 200 drawn first, [permission_create]
    draws once and writes [gidNumber = 200], the id of an existing group,
    in the new entry. *)
Theorem random_gid_accepts_a_taken_id :
  (forall (E : env) (fuel : nat) (s : state),
      random_gid E (S fuel) s
      = (Ok (Py.str_of_int (randint E (rand_calls s))),
         {| ldap := ldap s; trace := trace s; rand_calls := S (rand_calls s) |}))
  /\ all_gid (demo_env [] [200%Z]) = [200%Z]
  /\ randint (demo_env [] [200%Z]) 0 = 200%Z
  /\ (exists new_permission, fst create_editors = Ok new_permission)
  /\ stored (snd create_editors) "myapp.editors" "gidNumber" = [Py.str_of_int 200]
  /\ Py.str_of_int 200 = "200"
  /\ rand_calls (snd create_editors) = 1.
Proof.
  split; [exact random_gid_first_sample|].
  split; [reflexivity|]. split; [reflexivity|].
  split; [vm_compute; eexists; reflexivity|].
  repeat split.
Qed.

(** ** Bare strings for list arguments *)

(** [permission_create] wraps a bare string at lines 296-298, before any
    use: the string and the one-element list give the same run. *)
Lemma create_bare_string_as_list (E : env) (fuel : nat) (permission g : string)
  (url : option string) (additional_urls : option (list string)) (auth_header : bool)
  (label : option string) (show_tile protected sync_perm : bool) :
  permission_create E fuel permission (Py.ArgStr g) url additional_urls auth_header
    label show_tile protected sync_perm
  = permission_create E fuel permission (Py.ArgList [g]) url additional_urls auth_header
      label show_tile protected sync_perm.
Proof. reflexivity. Qed.

Lemma contains_as_list (g : string) :
  plain_name g = true ->
  Py.truthy (Py.ArgStr g) = Py.truthy (Py.ArgList [g])
  /\ Py.arg_contains (Py.ArgStr g) "visitors" = Py.arg_contains (Py.ArgList [g]) "visitors".
Proof.
  unfold plain_name. intros H. apply andb_true_iff in H as [Hne Hplain].
  apply eqb_prop in Hplain. split.
  - simpl. exact Hne.
  - simpl. rewrite Hplain, orb_false_r. apply String.eqb_sym.
Qed.

(** X22. [user_permission_update] treats a bare string as the one-element
    list, for the groups to add and for the groups to remove, when the name
    is not empty and [visitors] is not a proper substring of it. *)
Lemma update_bare_string_as_list (E : env) (permission g : string) (other : Py.arg)
  (label : option string) (show_tile protected : option bool) (force sync_perm : bool) :
  plain_name g = true ->
  user_permission_update E permission (Py.ArgStr g) other label show_tile protected
    force sync_perm
  = user_permission_update E permission (Py.ArgList [g]) other label show_tile protected
      force sync_perm
  /\ user_permission_update E permission other (Py.ArgStr g) label show_tile protected
       force sync_perm
     = user_permission_update E permission other (Py.ArgList [g]) label show_tile protected
         force sync_perm.
Proof.
  intros H. destruct (contains_as_list g H) as [Ht Hc].
  unfold user_permission_update, protected_guard, visitors_on_protected.
  rewrite Ht, Hc. split; reflexivity.
Qed.

(** C10. A bare string is not always treated as the one-element list by
    [user_permission_update]: the guards of lines 129-134 run on the raw
    argument, where ["visitors" in add] is a substring test.  Adding the
    existing group [myvisitors] to [mail] as a bare string is refused with
    [permission_require_account], while the list form adds the group;
    removing it as a bare string from the protected [mail.main] is refused
    with [permission_protected], while the list form goes through.
    [permission_create] does treat a bare string as the one-element list. *)
Theorem bare_string_is_searched_for_visitors :
  Py.mem "myvisitors" (map fst (groups (demo_env [] []))) = true
  /\ fst (user_permission_update (demo_env [] []) "mail" (Py.ArgStr "myvisitors")
            Py.ArgNone None None None false true synced_state)
     = Raise (YunohostError "permission_require_account" "mail.main")
  /\ (exists new_permission,
        fst (user_permission_update (demo_env [] []) "mail" (Py.ArgList ["myvisitors"])
               Py.ArgNone None None None false true synced_state) = Ok new_permission
        /\ Py.mem "myvisitors" (Perm.allowed new_permission) = true)
  /\ fst (user_permission_update (demo_env [] []) "mail" Py.ArgNone
            (Py.ArgStr "myvisitors") None None None false true synced_state)
     = Raise (YunohostError "permission_protected" "mail.main")
  /\ (exists new_permission,
        fst (user_permission_update (demo_env [] []) "mail" Py.ArgNone
               (Py.ArgList ["myvisitors"]) None None None false true synced_state)
        = Ok new_permission)
  /\ (forall (E : env) (fuel : nat) (permission g : string) (url : option string)
        (additional_urls : option (list string)) (auth_header : bool)
        (label : option string) (show_tile protected sync_perm : bool),
        permission_create E fuel permission (Py.ArgStr g) url additional_urls auth_header
          label show_tile protected sync_perm
        = permission_create E fuel permission (Py.ArgList [g]) url additional_urls
            auth_header label show_tile protected sync_perm).
Proof.
  split; [reflexivity|]. split; [reflexivity|].
  split; [vm_compute; eexists; split; reflexivity|].
  split; [reflexivity|].
  split; [vm_compute; eexists; reflexivity|].
  exact create_bare_string_as_list.
Qed.

(** ** URL completion *)

Lemma complete_url_admin :
  _complete_url [("myapp", "example.org/myapp")] (Some "/admin") "myapp.main"
  = Ok (Some "example.org/myapp/admin").
Proof. reflexivity. Qed.

(** C4. The regex fragment ["re:/api/[A-Z]*$"] of app [myapp] (domain+path
    [example.org/myapp]) is completed to ["re:example.org/myappapi/[A-Z]*$"]:
    [lstrip('re:/')] strips the leading slash together with the marker, so the
    separator between the app path and the fragment is lost and the result is
    not ["re:example.org/myapp/api/[A-Z]*$"].  The plain fragment ["/admin"]
    is completed to ["example.org/myapp/admin"]. *)
Theorem complete_url_regex_loses_slash :
  _complete_url [("myapp", "example.org/myapp")] (Some "re:/api/[A-Z]*$") "myapp.main"
    = Ok (Some "re:example.org/myappapi/[A-Z]*$")
  /\ _complete_url [("myapp", "example.org/myapp")] (Some "re:/api/[A-Z]*$") "myapp.main"
    <> Ok (Some "re:example.org/myapp/api/[A-Z]*$")
  /\ Py.lstrip "re:/api/[A-Z]*$" "re:/" = "api/[A-Z]*$"
  /\ _complete_url [("myapp", "example.org/myapp")] (Some "/admin") "myapp.main"
    = Ok (Some "example.org/myapp/admin").
Proof.
  split; [reflexivity | split; [discriminate | split; reflexivity]].
Qed.

(** * Further properties of the module *)

(** ** Strings and directory paths *)

Lemma endswith_append (a p : string) : endswith (a +++ p) p = true.
Proof.
  induction a as [|c a IH]; simpl.
  - destruct p; simpl; [reflexivity|]. now rewrite Ascii.eqb_refl, String.eqb_refl.
  - rewrite IH. apply orb_true_r.
Qed.

Lemma append_assoc (a b c : string) : (a +++ b) +++ c = a +++ b +++ c.
Proof. induction a as [|x a IH]; simpl; [reflexivity | now rewrite IH]. Qed.

Lemma length_append (a b : string) :
  String.length (a +++ b) = String.length a + String.length b.
Proof. induction a as [|x a IH]; simpl; [reflexivity | now rewrite IH]. Qed.

Lemma append_inj_r (c a b : string) : a +++ c = b +++ c -> a = b.
Proof.
  revert b. induction a as [|x a IH]; intros [|y b] H; simpl in H.
  - reflexivity.
  - apply (f_equal String.length) in H. simpl in H. rewrite length_append in H. lia.
  - apply (f_equal String.length) in H. simpl in H. rewrite length_append in H. lia.
  - injection H as -> H. f_equal. apply IH, H.
Qed.

(** The entry at [cn=<name>,ou=permission] is the entry named [name]. *)
Lemma has_dn_cn (name : string) (e : entry) :
  has_dn ("cn=" +++ name +++ ",ou=permission") e = String.eqb (cn e) name.
Proof.
  unfold has_dn, entry_dn.
  destruct (String.eqb_spec (cn e) name) as [->|Hne].
  - apply String.eqb_refl.
  - apply String.eqb_neq. intros H. apply Hne.
    simpl in H. inversion H as [H1]. apply append_inj_r in H1. exact H1.
Qed.

Lemma prefix_append (a b : string) : String.prefix a (a +++ b) = true.
Proof.
  induction a as [|c a IH]; simpl.
  - destruct b; reflexivity.
  - destruct (ascii_dec c c); [exact IH | congruence].
Qed.

Lemma contains_cons_false (c : ascii) (s sub : string) :
  Py.contains (String c s) sub = false -> Py.contains s sub = false.
Proof.
  cbn [Py.contains]. intros H. apply orb_false_iff in H as [_ H]. exact H.
Qed.

Lemma split_no_comma (a b : string) :
  no_comma a = true ->
  Py.split (a +++ String "," b) "," = a :: Py.split b ",".
Proof.
  unfold no_comma. rewrite negb_true_iff.
  induction a as [|c a IH]; intros H.
  - reflexivity.
  - cbn [String.append Py.split].
    assert (Hc : Ascii.eqb c "," = false).
    { destruct (Ascii.eqb_spec c ",") as [->|Hne]; [|reflexivity].
      cbn [Py.contains] in H.
      rewrite (prefix_append "," a : String.prefix "," (String "," a) = true) in H.
      discriminate. }
    rewrite Hc, (IH (contains_cons_false _ _ _ H)). reflexivity.
Qed.

Lemma substring_all (s : string) : String.substring 0 (String.length s) s = s.
Proof. induction s as [|c s IH]; simpl; [reflexivity | now rewrite IH]. Qed.

Lemma substring_skip (a b : string) :
  String.substring (String.length a) (String.length b) (a +++ b) = b.
Proof.
  induction a as [|c a IH]; simpl; [apply substring_all | exact IH].
Qed.

(** What is read back from a path [<info>=<name>,<rest>] is [<name>]. *)
Lemma ldap_path_extract_first (info name rest : string) :
  no_comma (info +++ "=" +++ name) = true ->
  _ldap_path_extract ((info +++ "=" +++ name) +++ String "," rest) info = name.
Proof.
  intros H. unfold _ldap_path_extract. rewrite (split_no_comma _ _ H).
  cbn [filter]. unfold Py.startswith.
  rewrite <- !(append_assoc info "=" name).
  set (key := info +++ "="). rewrite prefix_append, length_append.
  replace (String.length key + String.length name - String.length key)
    with (String.length name) by lia.
  apply substring_skip.
Qed.

(** ** Dicts *)

Lemma get_setitem {V : Type} (d : list (string * V)) (k k' : string) (v : V) :
  Py.get (Py.setitem d k v) k' = if String.eqb k' k then Some v else Py.get d k'.
Proof.
  induction d as [|[k0 v0] d IH]; simpl.
  - reflexivity.
  - destruct (String.eqb_spec k k0) as [->|Hk]; simpl.
    + destruct (String.eqb k' k0); reflexivity.
    + rewrite IH. destruct (String.eqb_spec k' k0) as [->|Hk'].
      * destruct (String.eqb_spec k0 k); [congruence | reflexivity].
      * reflexivity.
Qed.

Lemma get_remove_key {V : Type} (d : list (string * V)) (k k' : string) :
  Py.get (remove_key d k) k' = if String.eqb k' k then None else Py.get d k'.
Proof.
  induction d as [|[k0 v0] d IH]; simpl.
  - destruct (String.eqb k' k); reflexivity.
  - destruct (String.eqb_spec k k0) as [->|Hk]; simpl.
    + rewrite IH. destruct (String.eqb k' k0); reflexivity.
    + rewrite IH. destruct (String.eqb_spec k' k0) as [->|Hk'].
      * destruct (String.eqb_spec k0 k); [congruence | reflexivity].
      * reflexivity.
Qed.

Lemma get_none_iff {V : Type} (d : list (string * V)) (k : string) :
  Py.get d k = None <-> ~ In k (map fst d).
Proof.
  induction d as [|[k0 v0] d IH]; simpl.
  - tauto.
  - destruct (String.eqb_spec k k0) as [->|Hk].
    + split; [discriminate | tauto].
    + rewrite IH. split; [intros H [H'|H']; congruence | tauto].
Qed.

Lemma get_in {V : Type} (d : list (string * V)) (k : string) (v : V) :
  Py.get d k = Some v -> In (k, v) d.
Proof.
  induction d as [|[k0 v0] d IH]; simpl; [discriminate|].
  destruct (String.eqb_spec k k0) as [->|Hk].
  - intros H. injection H as ->. auto.
  - auto.
Qed.

Lemma setitem_keys {V : Type} (d : list (string * V)) (k k' : string) (v : V) :
  In k' (map fst (Py.setitem d k v)) <-> k' = k \/ In k' (map fst d).
Proof.
  induction d as [|[k0 v0] d IH]; simpl.
  - intuition.
  - destruct (String.eqb_spec k k0) as [->|Hk]; simpl.
    + intuition.
    + rewrite IH. intuition.
Qed.

Lemma setitem_fresh {V : Type} (d : list (string * V)) (k : string) (v : V) :
  ~ In k (map fst d) -> Py.setitem d k v = d ++ [(k, v)].
Proof.
  induction d as [|[k0 v0] d IH]; simpl; intros H.
  - reflexivity.
  - destruct (String.eqb_spec k k0) as [->|Hk]; [tauto|].
    rewrite IH; [reflexivity | tauto].
Qed.

Lemma setitem_map {V W : Type} (h : V -> W) (d : list (string * V)) (k : string) (v : V) :
  map (fun kv => (fst kv, h (snd kv))) (Py.setitem d k v)
  = Py.setitem (map (fun kv => (fst kv, h (snd kv))) d) k (h v).
Proof.
  induction d as [|[k0 v0] d IH]; simpl.
  - reflexivity.
  - destruct (String.eqb k k0); simpl; [reflexivity | now rewrite IH].
Qed.

(** ** The two catalog loops have the common shape *)

Lemma read_permissions_shape (E : env) (ignore_system_perms full_path : bool)
  (entries : list entry) (acc : list (string * Perm.t)) :
  read_permissions E ignore_system_perms full_path entries acc
  = read_with (read_permission E full_path) ignore_system_perms entries acc.
Proof.
  revert acc. induction entries as [|e rest IH]; intros acc; cbn [read_permissions read_with].
  - reflexivity.
  - destruct (ignore_system_perms && _); [apply IH|].
    destruct (read_permission E full_path e); cbn [rbind]; [apply IH | reflexivity].
Qed.

Lemma read_views_shape (E : env) (full ignore_system_perms full_path : bool)
  (entries : list entry) (acc : list (string * permission_view)) :
  read_views E full ignore_system_perms full_path entries acc
  = read_with (read_view E full full_path) ignore_system_perms entries acc.
Proof.
  revert acc. induction entries as [|e rest IH]; intros acc; cbn [read_views read_with].
  - reflexivity.
  - destruct (ignore_system_perms && _); [apply IH|].
    destruct (read_view E full full_path e); cbn [rbind]; [apply IH | reflexivity].
Qed.

Lemma read_with_keys {V : Type} (read : entry -> result V) (ignore_system_perms : bool)
  (entries : list entry) (acc result : list (string * V)) :
  read_with read ignore_system_perms entries acc = Ok result ->
  forall name,
    In name (map fst result) <->
    In name (map fst acc)
    \/ exists e, In e entries /\ cn e = name
                 /\ ignore_system_perms && Py.mem (app_of name) SYSTEM_PERMS = false.
Proof.
  revert acc. induction entries as [|e rest IH]; intros acc H name; cbn [read_with] in H.
  - injection H as <-. split; [auto | intros [H|(e & [] & _)]; exact H].
  - destruct (ignore_system_perms && Py.mem (app_of (cn e)) SYSTEM_PERMS) eqn:Hskip.
    + rewrite (IH _ H). split.
      * intros [Hacc|(e' & Hin & Hcn & Hkeep)]; [auto|].
        right. exists e'. simpl. auto.
      * intros [Hacc|(e' & [<-|Hin] & Hcn & Hkeep)]; [auto| |].
        -- subst name. congruence.
        -- right. exists e'. auto.
    + destruct (read e) as [v|err]; cbn [rbind] in H; [|discriminate].
      rewrite (IH _ H), setitem_keys. split.
      * intros [[->|Hacc]|(e' & Hin & Hcn & Hkeep)].
        -- right. exists e. simpl. auto.
        -- auto.
        -- right. exists e'. simpl. auto.
      * intros [Hacc|(e' & [<-|Hin] & Hcn & Hkeep)].
        -- auto.
        -- left. left. congruence.
        -- right. exists e'. auto.
Qed.

Lemma read_with_total {V : Type} (read : entry -> result V) (ignore_system_perms : bool)
  (entries : list entry) (acc : list (string * V)) :
  (forall e, In e entries -> exists v, read e = Ok v) ->
  exists result, read_with read ignore_system_perms entries acc = Ok result.
Proof.
  revert acc. induction entries as [|e rest IH]; intros acc H; cbn [read_with].
  - eauto.
  - destruct (ignore_system_perms && _).
    + apply IH. intros; apply H; simpl; auto.
    + destruct (H e) as [v ->]; [simpl; auto|]. cbn [rbind].
      apply IH. intros; apply H; simpl; auto.
Qed.

(** Two readers that agree up to a projection give listings that agree up to
    that projection. *)
Lemma read_with_project {V W X : Type} (read1 : entry -> result V)
  (read2 : entry -> result W) (p1 : V -> X) (p2 : W -> X) (ignore_system_perms : bool)
  (entries : list entry) :
  (forall e v, read1 e = Ok v -> exists w, read2 e = Ok w /\ p2 w = p1 v) ->
  forall (acc1 : list (string * V)) (acc2 : list (string * W)) (result1 : list (string * V)),
    map (fun kv => (fst kv, p1 (snd kv))) acc1 = map (fun kv => (fst kv, p2 (snd kv))) acc2 ->
    read_with read1 ignore_system_perms entries acc1 = Ok result1 ->
    exists result2,
      read_with read2 ignore_system_perms entries acc2 = Ok result2
      /\ map (fun kv => (fst kv, p1 (snd kv))) result1
         = map (fun kv => (fst kv, p2 (snd kv))) result2.
Proof.
  intros Hread. induction entries as [|e rest IH]; intros acc1 acc2 result1 Hacc H;
    cbn [read_with] in *.
  - injection H as <-. eauto.
  - destruct (ignore_system_perms && _).
    + eapply IH; eassumption.
    + destruct (read1 e) as [v|err] eqn:Hv; cbn [rbind] in H; [|discriminate].
      destruct (Hread e v Hv) as (w & -> & Hw). cbn [rbind].
      eapply IH; [|exact H].
      rewrite (setitem_map p1), (setitem_map p2), Hacc, Hw. reflexivity.
Qed.

(** ** [user_permission_list] *)

Lemma setitem_in {V : Type} (d : list (string * V)) (k k' : string) (v v' : V) :
  In (k', v') (Py.setitem d k v) -> (k' = k /\ v' = v) \/ In (k', v') d.
Proof.
  induction d as [|[k0 v0] d IH]; simpl.
  - intros [H|[]]. injection H as <- <-. auto.
  - destruct (String.eqb_spec k k0) as [->|Hk]; simpl.
    + intros [H|H]; [injection H as <- <-; auto | auto].
    + intros [H|H]; [auto|]. destruct (IH H); auto.
Qed.

Lemma read_with_values {V : Type} (read : entry -> result V) (ignore_system_perms : bool)
  (entries : list entry) (acc result : list (string * V)) :
  read_with read ignore_system_perms entries acc = Ok result ->
  forall name v, In (name, v) result ->
                 In (name, v) acc \/ exists e, In e entries /\ cn e = name /\ read e = Ok v.
Proof.
  revert acc. induction entries as [|e rest IH]; intros acc H name v Hin; cbn [read_with] in H.
  - injection H as <-. auto.
  - destruct (ignore_system_perms && _).
    + destruct (IH _ H name v Hin) as [Hacc|(e' & He' & Hcn & Hv)]; [auto|].
      right. exists e'. simpl. auto.
    + destruct (read e) as [v0|err] eqn:Hv0; cbn [rbind] in H; [|discriminate].
      destruct (IH _ H name v Hin) as [Hacc|(e' & He' & Hcn & Hv)].
      * destruct (setitem_in _ _ _ _ _ Hacc) as [[-> ->]|Hacc']; [|auto].
        right. exists e. simpl. auto.
      * right. exists e'. simpl. auto.
Qed.

(** X1. Whatever the flags, the names shown by [user_permission_list] are the
    names of the directory entries, less the permissions of the apps of
    [SYSTEM_PERMS] when [ignore_system_perms] is set; [short] shows the same
    names as the dict. *)
Theorem listing_shows_the_directory_names (E : env)
  (short full ignore_system_perms full_path : bool) (s : state) (l : listing) :
  user_permission_list_flags E short full ignore_system_perms full_path s = Ok l ->
  forall name,
    In name (listing_names l) <->
    exists e, In e (ldap s) /\ cn e = name
              /\ ignore_system_perms && Py.mem (app_of name) SYSTEM_PERMS = false.
Proof.
  unfold user_permission_list_flags. rewrite read_views_shape. intros H name.
  destruct (read_with _ _ _ _) as [permissions|err] eqn:Hread; cbn [rbind] in H;
    [|discriminate].
  assert (Hnames : listing_names l = map fst permissions).
  { destruct short; injection H as <-; reflexivity. }
  rewrite Hnames, (read_with_keys _ _ _ _ _ Hread). simpl. tauto.
Qed.

Lemma listing_shows_the_directory_names_witness :
  In "myapp.editors"
    (listing_names (Keys ["myapp.main"; "myapp.editors"])) <->
  exists e, In e (ldap mixed_state) /\ cn e = "myapp.editors"
            /\ true && Py.mem (app_of "myapp.editors") SYSTEM_PERMS = false.
Proof.
  apply (listing_shows_the_directory_names (demo_env [] []) true false true true
           mixed_state (Keys ["myapp.main"; "myapp.editors"])).
  reflexivity.
Defined.

(** X2. Without [full] the listing never raises, whatever the directory, the
    app settings and [full_path]; it shows, name by name and in the same
    order, the allowed groups that the detailed listing shows whenever the
    latter succeeds. *)
Theorem brief_listing_never_raises (E : env) (ignore_system_perms full_path : bool)
  (s : state) :
  exists brief,
    user_permission_list_flags E false false ignore_system_perms full_path s
    = Ok (Permissions brief)
    /\ forall full_path' detailed,
         read_permissions E ignore_system_perms full_path' (ldap s) [] = Ok detailed ->
         map (fun kv => (fst kv, view_allowed (snd kv))) brief
         = map (fun kv => (fst kv, Perm.allowed (snd kv))) detailed.
Proof.
  unfold user_permission_list_flags. rewrite read_views_shape.
  destruct (read_with_total (read_view E false full_path) ignore_system_perms (ldap s) [])
    as [brief Hbrief].
  { intros e _. unfold read_view. eauto. }
  exists brief. rewrite Hbrief. split; [reflexivity|].
  intros full_path' detailed Hdetailed. rewrite read_permissions_shape in Hdetailed.
  destruct (read_with_project (read_permission E full_path') (read_view E false full_path)
              Perm.allowed view_allowed ignore_system_perms (ldap s))
    with (acc1 := @nil (string * Perm.t)) (acc2 := @nil (string * permission_view))
         (result1 := detailed) as (brief' & Hbrief' & Hsame).
  - intros e p Hp. unfold read_view. eexists. split; [reflexivity|].
    unfold read_permission in Hp.
    destruct (if full_path' && _ then _ else _); cbn [rbind] in Hp; [|discriminate].
    injection Hp as <-. reflexivity.
  - reflexivity.
  - exact Hdetailed.
  - rewrite Hbrief in Hbrief'. injection Hbrief' as <-. symmetry. exact Hsame.
Qed.

(** X3. With raw paths ([full_path=False]) the detailed listing never raises
    either, and every record it shows is the raw reading of a directory entry
    of that name: no app setting is consulted.  The same holds with
    [full_path] for the permissions of the apps of [SYSTEM_PERMS]. *)
Theorem raw_listing_never_raises (E : env) (ignore_system_perms : bool) (s : state) :
  (exists permissions,
      read_permissions E ignore_system_perms false (ldap s) [] = Ok permissions
      /\ forall name infos,
           In (name, infos) permissions ->
           exists e, In e (ldap s) /\ cn e = name /\ infos = raw_infos e)
  /\ forall e, Py.mem (app_of (cn e)) SYSTEM_PERMS = true ->
               read_permission E true e = Ok (raw_infos e).
Proof.
  split.
  - rewrite read_permissions_shape.
    destruct (read_with_total (read_permission E false) ignore_system_perms (ldap s) [])
      as [permissions Hread].
    { intros e _. eexists. reflexivity. }
    exists permissions. split; [exact Hread|]. intros name infos Hin.
    destruct (read_with_values _ _ _ _ _ Hread name infos Hin) as [[]|(e & He & Hcn & Hv)].
    exists e. repeat split; try assumption.
    change (read_permission E false e) with (Ok (raw_infos e)) in Hv. congruence.
  - intros e Hsys. unfold read_permission. rewrite Hsys. reflexivity.
Qed.

(** ** Relations that every step of a run keeps *)

Definition preserves (R : state -> state -> Prop) {A : Type} (m : M A) : Prop :=
  forall s, R s (snd (m s)).

Section Preserved.

Variable R : state -> state -> Prop.
Hypothesis R_refl : forall s, R s s.
Hypothesis R_trans : forall s1 s2 s3, R s1 s2 -> R s2 s3 -> R s1 s3.

Lemma preserves_ret {A : Type} (a : A) : preserves R (ret a).
Proof. intros s. apply R_refl. Qed.

Lemma preserves_raise {A : Type} (e : exn) : preserves R (@raise A e).
Proof. intros s. apply R_refl. Qed.

Lemma preserves_lift {A : Type} (r : result A) : preserves R (lift r).
Proof. intros s. apply R_refl. Qed.

Lemma preserves_bind {A B : Type} (m : M A) (k : A -> M B) :
  preserves R m -> (forall a, preserves R (k a)) -> preserves R (bind m k).
Proof.
  intros Hm Hk s. unfold bind. specialize (Hm s).
  destruct (m s) as [[a|e] s1]; simpl in Hm.
  - eapply R_trans; [exact Hm | apply Hk].
  - exact Hm.
Qed.

Lemma preserves_try_except {A : Type} (m : M A) (h : exn -> M A) :
  preserves R m -> (forall e, preserves R (h e)) -> preserves R (try_except m h).
Proof.
  intros Hm Hh s. unfold try_except. specialize (Hm s).
  destruct (m s) as [[a|e] s1]; simpl in Hm.
  - exact Hm.
  - eapply R_trans; [exact Hm | apply Hh].
Qed.

Lemma preserves_for_each {A : Type} (l : list A) (body : A -> M unit) :
  (forall x, preserves R (body x)) -> preserves R (for_each l body).
Proof.
  intros Hbody. induction l as [|x l IH]; cbn [for_each].
  - apply preserves_ret.
  - apply preserves_bind; [apply Hbody | intros _; exact IH].
Qed.

Lemma preserves_when (c : bool) (body : M unit) :
  preserves R body -> preserves R (when c body).
Proof. intros H. destruct c; [exact H | apply preserves_ret]. Qed.

Lemma preserves_user_permission_list (E : env) (ignore_system_perms full_path : bool) :
  preserves R (user_permission_list E ignore_system_perms full_path).
Proof. intros s. apply R_refl. Qed.

End Preserved.

(** The names of the directory entries stay as they are, in order. *)
Definition same_names (s s' : state) : Prop := map cn (ldap s') = map cn (ldap s).

(** The directory stays as it is and no write is attempted. *)
Definition no_write (s s' : state) : Prop :=
  ldap s' = ldap s /\ ldap_writes (trace s') = ldap_writes (trace s).

Lemma same_names_refl (s : state) : same_names s s.
Proof. reflexivity. Qed.

Lemma same_names_trans (s1 s2 s3 : state) :
  same_names s1 s2 -> same_names s2 s3 -> same_names s1 s3.
Proof. unfold same_names. congruence. Qed.

Lemma no_write_refl (s : state) : no_write s s.
Proof. split; reflexivity. Qed.

Lemma no_write_trans (s1 s2 s3 : state) :
  no_write s1 s2 -> no_write s2 s3 -> no_write s1 s3.
Proof. unfold no_write. intros [-> ->] [-> ->]. auto. Qed.

Lemma same_names_emit (ev : event) : preserves same_names (emit ev).
Proof. intros s. reflexivity. Qed.

Lemma same_names_ldap_update (E : env) (dn : string) (attr_dict : delta) :
  preserves same_names (ldap_update E dn attr_dict).
Proof.
  intros s. unfold ldap_update, same_names. destruct (_ || _); cbn [snd ldap].
  - reflexivity.
  - rewrite map_map. apply map_ext. intros e. destruct (has_dn dn e); reflexivity.
Qed.

Create HintDb names.
#[local] Hint Resolve same_names_refl same_names_trans same_names_emit
  same_names_ldap_update : names.

Ltac names_step :=
  first [ apply same_names_emit
        | apply same_names_ldap_update
        | apply preserves_ret; exact same_names_refl
        | apply preserves_raise; exact same_names_refl
        | apply preserves_lift; exact same_names_refl
        | apply preserves_user_permission_list; exact same_names_refl
        | apply (preserves_bind same_names same_names_trans); [|intros ?]
        | apply (preserves_try_except same_names same_names_trans); [|intros ?]
        | apply (preserves_when same_names same_names_refl)
        | apply (preserves_for_each same_names same_names_refl same_names_trans); intros ? ].

Lemma same_names_sync_permission (E : env) (item : string * Perm.t) :
  preserves same_names (sync_permission E item).
Proof.
  destruct item as [name infos]. unfold sync_permission.
  names_step; [names_step|]. destruct (Py.set_eqb _ _); repeat names_step.
Qed.

Lemma same_names_permission_sync_to_user (E : env) :
  preserves same_names (permission_sync_to_user E).
Proof.
  unfold permission_sync_to_user.
  names_step; [names_step|].
  names_step; [names_step; apply same_names_sync_permission|].
  repeat names_step.
Qed.

Lemma same_names_update_ldap_group_permission (E : env) (permission : string)
  (allowed : Py.arg) (label : option string) (show_tile protected : option bool)
  (sync_perm : bool) :
  preserves same_names
    (_update_ldap_group_permission E permission allowed label show_tile protected sync_perm).
Proof.
  unfold _update_ldap_group_permission.
  names_step; [names_step|]. names_step; [names_step|].
  names_step; [repeat names_step|].
  names_step; [names_step; apply same_names_permission_sync_to_user|].
  repeat names_step.
Qed.

Lemma same_names_add_groups (E : env) (permission : string)
  (current groups_to_add acc : list string) :
  preserves same_names (add_groups E permission current groups_to_add acc).
Proof.
  revert acc. induction groups_to_add as [|g rest IH]; intros acc; cbn [add_groups].
  - names_step.
  - destruct (negb _); [names_step|].
    destruct (Py.mem g current); (names_step; [names_step | apply IH]).
Qed.

Lemma same_names_add_urls (E : env) (url : option string)
  (current : list (option string)) (add_url : list string) (acc : list (option string)) :
  preserves same_names (add_urls E url current add_url acc).
Proof.
  revert acc. induction add_url as [|ur rest IH]; intros acc; cbn [add_urls].
  - names_step.
  - destruct (Py.mem_opt _ _); (names_step; [names_step | apply IH]).
Qed.

(** ** Runs that succeed *)

Lemma bind_ok {A B : Type} (m : M A) (k : A -> M B) (s s' : state) (b : B) :
  bind m k s = (Ok b, s') ->
  exists a s1, m s = (Ok a, s1) /\ k a s1 = (Ok b, s').
Proof.
  unfold bind. destruct (m s) as [[a|e] s1]; [eauto | discriminate].
Qed.

Lemma try_raise_ok {A : Type} (m : M A) (e : exn) (s s' : state) (a : A) :
  try_except m (fun _ => raise e) s = (Ok a, s') -> m s = (Ok a, s').
Proof.
  unfold try_except, raise. destruct (m s) as [[a0|e0] s1]; [auto | discriminate].
Qed.

(** ** The mutators keep the names of the directory *)

Lemma same_names_remove_urls (url : option string)
  (current : list (option string)) (remove_url : list string) :
  preserves same_names (remove_urls url current remove_url).
Proof.
  unfold remove_urls.
  apply (preserves_for_each same_names same_names_refl same_names_trans). intros ur.
  apply (preserves_when same_names same_names_refl), same_names_emit.
Qed.

Lemma same_names_remove_groups (current groups_to_remove : list string) :
  preserves same_names (remove_groups current groups_to_remove).
Proof.
  unfold remove_groups.
  apply (preserves_for_each same_names same_names_refl same_names_trans). intros g.
  destruct (negb _); apply same_names_emit.
Qed.

Lemma same_names_user_permission_update (E : env) (permission : string)
  (add remove : Py.arg) (label : option string) (show_tile protected : option bool)
  (force sync_perm : bool) :
  preserves same_names
    (user_permission_update E permission add remove label show_tile protected force
       sync_perm).
Proof.
  unfold user_permission_update.
  names_step; [names_step|]. destruct (_ && _); [names_step|].
  names_step; [names_step|]. destruct a0; [names_step|].
  destruct (Py.get a _); [|names_step].
  names_step; [names_step|].
  names_step; [destruct (Py.truthy add); [apply same_names_add_groups | names_step]|].
  names_step.
  { destruct (Py.truthy remove); [|names_step].
    names_step; [apply same_names_remove_groups | names_step]. }
  names_step; [repeat names_step|].
  names_step; [names_step|].
  names_step; [apply same_names_update_ldap_group_permission|].
  repeat names_step.
Qed.

Lemma same_names_user_permission_reset (E : env) (permission : string) (sync_perm : bool) :
  preserves same_names (user_permission_reset E permission sync_perm).
Proof.
  unfold user_permission_reset.
  names_step; [names_step|]. destruct (Py.get a _); [|names_step].
  destruct (Py.list_eqb _ _); [repeat names_step|].
  names_step; [names_step|]. names_step; [names_step|].
  names_step; [apply same_names_update_ldap_group_permission|].
  repeat names_step.
Qed.

Lemma same_names_permission_url (E : env) (permission : string) (url : option string)
  (add_url remove_url : option (list string)) (auth_header : option bool)
  (clear_urls sync_perm : bool) :
  preserves same_names
    (permission_url E permission url add_url remove_url auth_header clear_urls sync_perm).
Proof.
  unfold permission_url.
  names_step; [names_step|]. destruct (Py.get a _); [|names_step].
  names_step; [destruct url; repeat names_step|].
  names_step.
  { destruct add_url as [[|ur rest]|];
      [names_step | apply same_names_add_urls | names_step]. }
  names_step.
  { destruct remove_url as [[|ur rest]|]; [names_step | | names_step].
    names_step; [apply same_names_remove_urls | names_step]. }
  names_step; [names_step|]. names_step; [names_step|].
  names_step; [repeat names_step|].
  names_step; [names_step; apply same_names_permission_sync_to_user|].
  repeat names_step.
Qed.

(** X4. Updating the groups of a permission, resetting it, changing its urls
    and running the synchronizer never create, delete, rename or reorder a
    directory entry, whatever the arguments and whether the run succeeds or
    raises. *)
Theorem mutators_keep_the_directory_names (E : env) (s : state) :
  (forall permission add remove label show_tile protected force sync_perm,
      map cn (ldap (snd (user_permission_update E permission add remove label show_tile
                           protected force sync_perm s)))
      = map cn (ldap s))
  /\ (forall permission sync_perm,
        map cn (ldap (snd (user_permission_reset E permission sync_perm s)))
        = map cn (ldap s))
  /\ (forall permission url add_url remove_url auth_header clear_urls sync_perm,
        map cn (ldap (snd (permission_url E permission url add_url remove_url auth_header
                             clear_urls sync_perm s)))
        = map cn (ldap s))
  /\ map cn (ldap (snd (permission_sync_to_user E s))) = map cn (ldap s).
Proof.
  split; [|split; [|split]].
  - intros. apply same_names_user_permission_update.
  - intros. apply same_names_user_permission_reset.
  - intros. apply same_names_permission_url.
  - apply same_names_permission_sync_to_user.
Qed.

(** ** [permission_delete] *)

(** X5. A main permission is never deleted without [force]: for a bare app
    name, and for any name ending in [.main], the call raises
    [permission_cannot_remove_main] before it reads or touches anything. *)
Theorem delete_refuses_main_without_force (E : env) (s : state) (permission : string)
  (sync_perm : bool) :
  Py.contains permission "." = false \/ endswith permission ".main" = true ->
  permission_delete E permission false sync_perm s
  = (Raise (YunohostError "permission_cannot_remove_main" ""), s).
Proof.
  intros H. unfold permission_delete.
  assert (Hmain : endswith (main_by_default permission) ".main" = true).
  { unfold main_by_default.
    destruct (Py.contains permission ".") eqn:Hdot; cbn [negb].
    - destruct H as [H|H]; [discriminate | exact H].
    - apply endswith_append. }
  rewrite Hmain. reflexivity.
Qed.

Lemma delete_refuses_main_without_force_witness :
  permission_delete (demo_env [] []) "myapp" false true mixed_state
  = (Raise (YunohostError "permission_cannot_remove_main" ""), mixed_state).
Proof.
  apply (delete_refuses_main_without_force (demo_env [] []) mixed_state "myapp" true).
  left. reflexivity.
Defined.

Lemma names_after_remove (name : string) (entries : list entry) :
  map cn (filter (fun e => negb (has_dn ("cn=" +++ name +++ ",ou=permission") e)) entries)
  = filter (fun n => negb (String.eqb n name)) (map cn entries).
Proof.
  induction entries as [|e rest IH]; cbn [filter map].
  - reflexivity.
  - rewrite has_dn_cn. destruct (String.eqb (cn e) name); cbn [negb map]; now rewrite IH.
Qed.

Lemma catalog_names (E : env) (s : state) (name : string) :
  In name (map fst (catalog E s)) <-> In name (map cn (ldap s)).
Proof.
  unfold catalog.
  destruct (read_permissions_raw E false (ldap s) []) as [permissions Hread].
  rewrite Hread. rewrite read_permissions_shape in Hread.
  rewrite (read_with_keys _ _ _ _ _ Hread). simpl. split.
  - intros [[]|(e & He & Hcn & _)]. subst name. apply in_map, He.
  - intros H. apply in_map_iff in H as (e & Hcn & He). right. exists e. auto.
Qed.

(** X6. When [permission_delete] returns normally, with or without a
    synchronization pass, the directory holds the entries it held before
    less the deleted one, under the same names and in the same order: the
    permission is in no listing any more and its name is free for
    [permission_create]. *)
Theorem delete_removes_the_entry (E : env) (s s' : state) (permission : string)
  (force sync_perm : bool) :
  permission_delete E permission force sync_perm s = (Ok tt, s') ->
  map cn (ldap s')
  = filter (fun n => negb (String.eqb n (main_by_default permission))) (map cn (ldap s))
  /\ Py.get (catalog E s') (main_by_default permission) = None
  /\ fst (ldap_get_conflict (main_by_default permission) s') = Ok false.
Proof.
  unfold permission_delete. intros H.
  destruct (endswith _ _ && negb force); [discriminate|].
  apply bind_ok in H as (permissions & s0 & Hlist & H).
  unfold user_permission_list in Hlist. injection Hlist as _ <-.
  destruct (Py.get permissions _); [|discriminate].
  apply bind_ok in H as ([] & s1 & Hs1 & H). injection Hs1 as <-.
  apply bind_ok in H as ([] & s2 & Hs2 & H). injection Hs2 as <-.
  apply bind_ok in H as ([] & s3 & Hs3 & H).
  apply try_raise_ok in Hs3. unfold ldap_remove in Hs3. cbn [ldap trace rand_calls] in Hs3.
  destruct (_ || _); [discriminate|]. injection Hs3 as <-.
  apply bind_ok in H as ([] & s4 & Hs4 & H).
  match type of Hs4 with
  | when _ _ ?s3 = _ =>
      pose proof (preserves_when same_names same_names_refl sync_perm _
                    (same_names_permission_sync_to_user E) s3) as Hsync
  end.
  rewrite Hs4 in Hsync.
  injection H as <-. unfold same_names in Hsync. cbn [ldap snd] in *.
  assert (Hnames : map cn (ldap s4)
                   = filter (fun n => negb (String.eqb n (main_by_default permission)))
                       (map cn (ldap s))).
  { rewrite Hsync. exact (names_after_remove (main_by_default permission) (ldap s)). }
  assert (Hgone : ~ In (main_by_default permission) (map cn (ldap s4))).
  { rewrite Hnames, filter_In, String.eqb_refl. intros [_ Hf]. discriminate. }
  split; [exact Hnames|]. split.
  - apply get_none_iff. rewrite catalog_names. exact Hgone.
  - unfold ldap_get_conflict. cbn [fst ldap]. f_equal.
    destruct (existsb _ _) eqn:Hex; [|reflexivity].
    apply existsb_exists in Hex as (e & He & Hcn). apply String.eqb_eq in Hcn.
    exfalso. apply Hgone. rewrite <- Hcn. apply in_map, He.
Qed.

Lemma delete_removes_the_entry_witness :
  map cn (ldap (snd delete_editors))
  = filter (fun n => negb (String.eqb n (main_by_default "myapp.editors")))
      (map cn (ldap mixed_state))
  /\ Py.get (catalog (demo_env [] []) (snd delete_editors))
       (main_by_default "myapp.editors") = None
  /\ fst (ldap_get_conflict (main_by_default "myapp.editors") (snd delete_editors))
     = Ok false.
Proof.
  apply (delete_removes_the_entry (demo_env [] []) mixed_state (snd delete_editors)
           "myapp.editors" false true).
  reflexivity.
Defined.

(** ** What a synchronization pass leaves behind *)

Lemma somes_map_some {A : Type} (l : list A) : somes (map Some l) = l.
Proof. induction l as [|x l IH]; simpl; [reflexivity | now rewrite IH]. Qed.

Lemma get_apply_delta_other (d : delta) (a : list (string * list string)) (k : string) :
  ~ In k (map fst d) -> Py.get (apply_delta a d) k = Py.get a k.
Proof.
  revert a. induction d as [|[k0 vs] d IH]; intros a Hk; cbn [apply_delta].
  - reflexivity.
  - simpl in Hk.
    assert (Hne : String.eqb k k0 = false) by (apply String.eqb_neq; intuition congruence).
    destruct (somes vs) as [|v vs'].
    + rewrite IH by tauto. now rewrite get_remove_key, Hne.
    + rewrite IH by tauto. now rewrite get_setitem, Hne.
Qed.

Lemma attr_apply_delta_first (a : list (string * list string)) (k : string)
  (values : list string) (d : delta) (name : string) :
  ~ In k (map fst d) ->
  attr {| cn := name; attributes := apply_delta a ((k, map Some values) :: d) |} k = values.
Proof.
  intros Hk. unfold attr. cbn [attributes apply_delta]. rewrite somes_map_some.
  destruct values as [|v values].
  - now rewrite (get_apply_delta_other d _ k Hk), get_remove_key, String.eqb_refl.
  - now rewrite (get_apply_delta_other d _ k Hk), get_setitem, String.eqb_refl.
Qed.

Lemma attr_apply_delta_other (a : list (string * list string)) (d : delta)
  (name k : string) :
  ~ In k (map fst d) ->
  attr {| cn := name; attributes := apply_delta a d |} k
  = attr {| cn := name; attributes := a |} k.
Proof.
  intros Hk. unfold attr. cbn [attributes]. now rewrite get_apply_delta_other.
Qed.

Lemma users_round_trip (users : list string) :
  forallb no_comma users = true ->
  map (fun p => _ldap_path_extract p "uid")
    (map (fun u => "uid=" +++ u +++ ",ou=users,dc=yunohost,dc=org") users) = users.
Proof.
  induction users as [|u users IH]; cbn [forallb map]; intros H.
  - reflexivity.
  - apply andb_true_iff in H as [Hu Hrest]. rewrite (IH Hrest). f_equal.
    apply (ldap_path_extract_first "uid" u "ou=users,dc=yunohost,dc=org"). exact Hu.
Qed.

Lemma groups_round_trip (names : list string) :
  forallb no_comma names = true ->
  map (fun p => _ldap_path_extract p "cn")
    (map (fun g => "cn=" +++ g +++ ",ou=groups,dc=yunohost,dc=org") names) = names.
Proof.
  induction names as [|g names IH]; cbn [forallb map]; intros H.
  - reflexivity.
  - apply andb_true_iff in H as [Hg Hrest]. rewrite (IH Hrest). f_equal.
    apply (ldap_path_extract_first "cn" g "ou=groups,dc=yunohost,dc=org"). exact Hg.
Qed.

Lemma set_eqb_refl_set (l : list string) : Py.set_eqb (Py.set (Py.set l)) (Py.set l) = true.
Proof. apply set_eqb_spec. intros x. now rewrite !set_In. Qed.

Lemma members_have_no_comma (E : env) (allowed users : list string) :
  forallb (fun group => forallb no_comma (snd group)) (groups E) = true ->
  members_of E allowed = Ok users ->
  forallb no_comma (Py.set users) = true.
Proof.
  intros Hgroups Husers. apply forallb_forall. intros u Hu. rewrite set_In in Hu.
  apply (members_of_In E allowed users Husers) in Hu as (g & members & _ & Hget & Hin).
  apply get_in in Hget. rewrite forallb_forall in Hgroups.
  specialize (Hgroups _ Hget). cbn [snd] in Hgroups. rewrite forallb_forall in Hgroups.
  apply Hgroups, Hin.
Qed.

Lemma cn_sync_entry (E : env) (e : entry) : cn (sync_entry E e) = cn e.
Proof.
  unfold sync_entry. destruct (members_of E _); [|reflexivity].
  destruct (Py.set_eqb _ _); reflexivity.
Qed.

(** The entry left by a pass is synchronized. *)
Lemma sync_entry_synchronized (E : env) (e : entry) (users : list string) :
  forallb (fun group => forallb no_comma (snd group)) (groups E) = true ->
  members_of E (Perm.allowed (raw_infos e)) = Ok users ->
  synchronized E (raw_infos (sync_entry E e)) = true.
Proof.
  intros Hgroups Husers. unfold sync_entry. rewrite Husers.
  destruct (Py.set_eqb _ _) eqn:Hsame.
  - unfold synchronized. now rewrite Husers.
  - unfold synchronized, raw_infos at 1 2. cbn [Perm.allowed Perm.corresponding_users].
    unfold new_inherited_perms.
    rewrite (attr_apply_delta_other (attributes e) _ (cn e) "groupPermission").
    2:{ simpl. intuition discriminate. }
    replace (attr {| cn := cn e; attributes := attributes e |} "groupPermission")
      with (attr e "groupPermission") by reflexivity.
    change (map (fun p => _ldap_path_extract p "cn") (attr e "groupPermission"))
      with (Perm.allowed (raw_infos e)).
    rewrite Husers.
    rewrite <- (map_map (fun u => "uid=" +++ u +++ ",ou=users,dc=yunohost,dc=org") Some).
    rewrite attr_apply_delta_first.
    2:{ simpl. intuition discriminate. }
    rewrite users_round_trip by (eapply members_have_no_comma; eassumption).
    apply set_eqb_refl_set.
Qed.

(** With distinct names, the raw catalog is the list of the entries'
    records. *)
Lemma catalog_of_distinct (E : env) (entries : list entry) (acc : list (string * Perm.t)) :
  NoDup (map cn entries) ->
  (forall e, In e entries -> ~ In (cn e) (map fst acc)) ->
  read_permissions E false false entries acc
  = Ok (acc ++ map (fun e => (cn e, raw_infos e)) entries).
Proof.
  revert acc. induction entries as [|e rest IH]; intros acc Hnodup Hfresh;
    cbn [read_permissions map].
  - now rewrite app_nil_r.
  - change (read_permission E false e) with (Ok (raw_infos e)). cbn [andb rbind].
    inversion Hnodup as [|? ? Hnotin Hrest]; subst.
    rewrite setitem_fresh by (apply Hfresh; simpl; auto).
    rewrite IH; [now rewrite <- app_assoc | exact Hrest |].
    intros e' He'. rewrite map_app, in_app_iff. simpl. intros [H|[H|[]]].
    + apply (Hfresh e'); simpl; auto.
    + apply Hnotin. rewrite H. apply in_map, He'.
Qed.

Lemma update_one (f : entry -> entry) (l1 l2 : list entry) (e : entry) :
  NoDup (map cn (l1 ++ e :: l2)) ->
  map (fun x => if has_dn ("cn=" +++ cn e +++ ",ou=permission") x then f x else x)
    (l1 ++ e :: l2)
  = l1 ++ f e :: l2.
Proof.
  intros Hnodup. rewrite map_app. cbn [map]. rewrite has_dn_cn, String.eqb_refl.
  rewrite map_app in Hnodup. cbn [map] in Hnodup.
  apply NoDup_remove_2 in Hnodup. rewrite in_app_iff in Hnodup.
  f_equal; [|f_equal].
  - rewrite <- (map_id l1) at 2. apply map_ext_in. intros x Hx. rewrite has_dn_cn.
    destruct (String.eqb_spec (cn x) (cn e)) as [Heq|]; [|reflexivity].
    exfalso. apply Hnodup. left. rewrite <- Heq. apply in_map, Hx.
  - rewrite <- (map_id l2) at 2. apply map_ext_in. intros x Hx. rewrite has_dn_cn.
    destruct (String.eqb_spec (cn x) (cn e)) as [Heq|]; [|reflexivity].
    exfalso. apply Hnodup. right. rewrite <- Heq. apply in_map, Hx.
Qed.

(** The loop of lines 461-482, when it ends normally, has replaced every
    entry by its synchronized form. *)
Lemma sync_loop_result (E : env) (l2 l1 : list entry) (st st' : state) :
  ldap st = l1 ++ l2 ->
  NoDup (map cn (l1 ++ l2)) ->
  for_each (map (fun e => (cn e, raw_infos e)) l2) (sync_permission E) st = (Ok tt, st') ->
  ldap st' = l1 ++ map (sync_entry E) l2
  /\ forall e, In e l2 -> exists users, members_of E (Perm.allowed (raw_infos e)) = Ok users.
Proof.
  revert l1 st. induction l2 as [|e l2 IH]; intros l1 st Hldap Hnodup Hrun;
    cbn [map for_each] in Hrun.
  - injection Hrun as <-. split; [exact Hldap | intros e []].
  - apply bind_ok in Hrun as ([] & s1 & Hstep & Hrun).
    unfold sync_permission in Hstep.
    apply bind_ok in Hstep as (users & s0 & Husers & Hstep).
    unfold lift in Husers. injection Husers as Husers <-.
    change (members_of E (Perm.allowed (raw_infos e)) = Ok users) in Husers.
    assert (Hentry : ldap s1 = l1 ++ sync_entry E e :: l2).
    { unfold sync_entry. rewrite Husers.
      destruct (Py.set_eqb _ _).
      - injection Hstep as <-. exact Hldap.
      - apply try_raise_ok in Hstep. unfold ldap_update in Hstep.
        destruct (_ || _); [discriminate|]. injection Hstep as <-.
        cbn [ldap]. rewrite Hldap.
        exact (update_one
                 (fun x => {| cn := cn x;
                              attributes := apply_delta (attributes x)
                                              (new_inherited_perms (Py.set users)) |})
                 l1 l2 e Hnodup). }
    destruct (IH (l1 ++ [sync_entry E e]) s1) as [Hfinal Hmembers].
    + rewrite <- app_assoc. exact Hentry.
    + rewrite <- app_assoc. cbn [app].
      rewrite map_app in *. cbn [map] in *. rewrite cn_sync_entry. exact Hnodup.
    + exact Hrun.
    + split.
      * rewrite Hfinal, <- app_assoc. reflexivity.
      * intros e' [<-|He']; [eauto | apply Hmembers, He'].
Qed.

Lemma emit_ok (ev : event) (s s' : state) :
  emit ev s = (Ok tt, s') -> ldap s' = ldap s.
Proof. unfold emit. intros H. injection H as <-. reflexivity. Qed.

(** X7. When the entries of the directory have distinct names and no user
    name holds a comma, a synchronization pass that returns normally leaves
    every permission synchronized: its stored users are the members of its
    allowed groups.  A second pass right after then writes nothing: it only
    runs its closing steps. *)
Theorem sync_pass_synchronizes_every_permission (E : env) (s s' : state) :
  Py.set (map cn (ldap s)) = map cn (ldap s) ->
  forallb (fun group => forallb no_comma (snd group)) (groups E) = true ->
  permission_sync_to_user E s = (Ok tt, s') ->
  forallb (fun item => synchronized E (snd item)) (catalog E s') = true
  /\ permission_sync_to_user E s'
     = (Ok tt, {| ldap := ldap s';
                  trace := trace s' ++ sync_epilogue;
                  rand_calls := rand_calls s' |}).
Proof.
  intros Hdistinct Hgroups Hrun.
  assert (Hnodup : NoDup (map cn (ldap s))).
  { rewrite <- Hdistinct. apply NoDup_nodup. }
  unfold permission_sync_to_user in Hrun.
  apply bind_ok in Hrun as (permissions & s0 & Hlist & Hrun).
  unfold user_permission_list in Hlist.
  rewrite (catalog_of_distinct E (ldap s) [] Hnodup) in Hlist by (intros ? ? []).
  injection Hlist as <- <-. cbn [app] in Hrun.
  apply bind_ok in Hrun as ([] & s1 & Hloop & Hrun).
  destruct (sync_loop_result E (ldap s) [] s s1 eq_refl Hnodup Hloop) as [Hldap Hmembers].
  cbn [app] in Hldap.
  apply bind_ok in Hrun as ([] & s2 & H2 & Hrun). apply emit_ok in H2.
  apply bind_ok in Hrun as ([] & s3 & H3 & Hrun). apply emit_ok in H3.
  apply bind_ok in Hrun as ([] & s4 & H4 & Hrun). apply emit_ok in H4.
  apply emit_ok in Hrun.
  assert (Hfinal : ldap s' = map (sync_entry E) (ldap s)) by congruence.
  assert (Hnodup' : NoDup (map cn (ldap s'))).
  { rewrite Hfinal, map_map. erewrite map_ext; [exact Hnodup|].
    intros e. apply cn_sync_entry. }
  assert (Hcatalog : read_permissions E false false (ldap s') []
                     = Ok (map (fun e => (cn e, raw_infos e)) (ldap s'))).
  { rewrite (catalog_of_distinct E (ldap s') [] Hnodup') by (intros ? ? []). reflexivity. }
  assert (Hall : forallb (fun item => synchronized E (snd item))
                   (map (fun e => (cn e, raw_infos e)) (ldap s')) = true).
  { apply forallb_forall. intros item Hitem.
    apply in_map_iff in Hitem as (e' & <- & He'). rewrite Hfinal in He'.
    apply in_map_iff in He' as (e & <- & He). cbn [snd].
    destruct (Hmembers e He) as [users Husers].
    apply (sync_entry_synchronized E e users Hgroups Husers). }
  split.
  - unfold catalog. rewrite Hcatalog. exact Hall.
  - unfold permission_sync_to_user, user_permission_list, bind at 1.
    rewrite Hcatalog. unfold bind at 1. rewrite (sync_loop_skip E _ s' Hall).
    unfold bind, emit, sync_epilogue. simpl.
    rewrite <- !app_assoc. reflexivity.
Qed.

Lemma sync_pass_synchronizes_every_permission_witness :
  forallb (fun item => synchronized (demo_env [] []) (snd item))
    (catalog (demo_env [] []) (snd accepted_pass)) = true
  /\ permission_sync_to_user (demo_env [] []) (snd accepted_pass)
     = (Ok tt, {| ldap := ldap (snd accepted_pass);
                  trace := trace (snd accepted_pass) ++ sync_epilogue;
                  rand_calls := rand_calls (snd accepted_pass) |}).
Proof.
  apply (sync_pass_synchronizes_every_permission (demo_env [] []) stale_state
           (snd accepted_pass)).
  - reflexivity.
  - reflexivity.
  - reflexivity.
Defined.

(** X8. What [_update_ldap_group_permission] and the synchronizer write is
    what [user_permission_list] reads back: for names without a comma, the
    group paths [cn=<g>,ou=groups,dc=yunohost,dc=org] decode to the groups
    and the user paths [uid=<u>,ou=users,dc=yunohost,dc=org] to the users,
    in order. *)
Theorem directory_paths_round_trip (names : list string) :
  forallb no_comma names = true ->
  map (fun p => _ldap_path_extract p "cn")
    (map (fun g => "cn=" +++ g +++ ",ou=groups,dc=yunohost,dc=org") names) = names
  /\ map (fun p => _ldap_path_extract p "uid")
       (map (fun u => "uid=" +++ u +++ ",ou=users,dc=yunohost,dc=org") names) = names.
Proof.
  intros H. split; [apply groups_round_trip | apply users_round_trip]; exact H.
Qed.

Lemma directory_paths_round_trip_witness :
  map (fun p => _ldap_path_extract p "cn")
    (map (fun g => "cn=" +++ g +++ ",ou=groups,dc=yunohost,dc=org")
       ["all_users"; "visitors"; "re:cn=x"]) = ["all_users"; "visitors"; "re:cn=x"]
  /\ map (fun p => _ldap_path_extract p "uid")
       (map (fun u => "uid=" +++ u +++ ",ou=users,dc=yunohost,dc=org")
          ["all_users"; "visitors"; "re:cn=x"]) = ["all_users"; "visitors"; "re:cn=x"].
Proof.
  apply (directory_paths_round_trip ["all_users"; "visitors"; "re:cn=x"]). reflexivity.
Defined.

(** ** Runs that write nothing *)

Lemma no_write_emit (ev : event) :
  ldap_writes [ev] = [] -> preserves no_write (emit ev).
Proof.
  intros Hev s. unfold emit, no_write. cbn [snd ldap trace].
  split; [reflexivity|]. rewrite ldap_writes_app, Hev. apply app_nil_r.
Qed.

Ltac quiet_step :=
  first [ apply no_write_emit; reflexivity
        | apply preserves_ret; exact no_write_refl
        | apply preserves_raise; exact no_write_refl
        | apply preserves_lift; exact no_write_refl
        | apply preserves_user_permission_list; exact no_write_refl
        | apply (preserves_bind no_write no_write_trans); [|intros ?]
        | apply (preserves_when no_write no_write_refl) ].

Lemma no_write_add_groups (E : env) (permission : string)
  (current groups_to_add acc : list string) :
  preserves no_write (add_groups E permission current groups_to_add acc).
Proof.
  revert acc. induction groups_to_add as [|g rest IH]; intros acc; cbn [add_groups].
  - quiet_step.
  - destruct (negb _); [quiet_step|].
    destruct (Py.mem g current); (quiet_step; [quiet_step | apply IH]).
Qed.

Lemma no_write_remove_groups (current groups_to_remove : list string) :
  preserves no_write (remove_groups current groups_to_remove).
Proof.
  unfold remove_groups.
  apply (preserves_for_each no_write no_write_refl no_write_trans). intros g.
  destruct (negb _); quiet_step.
Qed.


(** When every group is known, the loop appends, in order, the groups that
    are not currently allowed. *)
Lemma add_groups_known (E : env) (permission : string)
  (current groups_to_add acc : list string) (s : state) :
  forallb (fun g => negb (unknown_group E g)) groups_to_add = true ->
  fst (add_groups E permission current groups_to_add acc s)
  = Ok (acc ++ filter (fun g => negb (Py.mem g current)) groups_to_add).
Proof.
  revert acc s. induction groups_to_add as [|g rest IH]; intros acc s;
    cbn [forallb add_groups filter].
  - intros _. now rewrite app_nil_r.
  - unfold unknown_group at 1. intros H. apply andb_true_iff in H as [Hg Hrest].
    rewrite negb_true_iff in Hg. rewrite Hg.
    destruct (Py.mem g current); cbn [negb]; unfold bind, emit; rewrite (IH _ _ Hrest).
    + reflexivity.
    + now rewrite <- app_assoc.
Qed.

Lemma remove_groups_ok (current groups_to_remove : list string) (s : state) :
  fst (remove_groups current groups_to_remove s) = Ok tt.
Proof.
  unfold remove_groups. revert s.
  induction groups_to_remove as [|g rest IH]; intros s; cbn [for_each].
  - reflexivity.
  - unfold bind. destruct (negb _); unfold emit; apply IH.
Qed.

(** ** Guards and validation of [user_permission_update] *)

(** X9. On an existing protected permission, adding or removing [visitors]
    without [force] raises [permission_protected] and changes nothing
    (unless the account guard of lines 128-130 fires first). *)
Theorem update_refuses_visitors_on_protected (E : env) (s : state) (permission : string)
  (add remove : Py.arg) (label : option string) (show_tile protected : option bool)
  (sync_perm : bool) (existing_permission : Perm.t) :
  Py.get (catalog E s) (main_by_default permission) = Some existing_permission ->
  Perm.protected existing_permission = true ->
  mentions_visitors add || mentions_visitors remove = true ->
  mentions_visitors add && Py.mem (app_of (main_by_default permission)) SYSTEM_PERMS
  = false ->
  user_permission_update E permission add remove label show_tile protected false sync_perm s
  = (Raise (YunohostError "permission_protected" (main_by_default permission)), s).
Proof.
  unfold mentions_visitors, catalog. intros Hget Hprot Hvis Hsys.
  unfold user_permission_update, bind.
  destruct (user_permission_list_raw E false s) as (permissions & Hread & ->).
  rewrite Hread in Hget. rewrite Hsys.
  unfold lift, protected_guard, visitors_on_protected, protected_of.
  rewrite Hget, Hprot.
  destruct (Py.truthy add && Py.arg_contains add "visitors"); cbn [rbind negb].
  - reflexivity.
  - cbn [orb] in Hvis. rewrite Hvis. reflexivity.
Qed.

Lemma update_refuses_visitors_on_protected_witness :
  user_permission_update (demo_env [] []) "mail" Py.ArgNone (Py.ArgList ["visitors"])
    None None None false true mixed_state
  = (Raise (YunohostError "permission_protected" (main_by_default "mail")), mixed_state).
Proof.
  apply (update_refuses_visitors_on_protected (demo_env [] []) mixed_state "mail"
           Py.ArgNone (Py.ArgList ["visitors"]) None None None true
           (raw_infos (permission_entry "mail.main" ["all_users"] ["alice"; "bob"] true))).
  - reflexivity.
  - reflexivity.
  - reflexivity.
  - reflexivity.
Defined.

(** X10. For an app that is in [SYSTEM_PERMS] as the list is written, adding
    [visitors] raises [permission_require_account] and changes nothing,
    whatever the other arguments, [force] included, and whether or not the
    permission exists. *)
Theorem visitors_refused_on_listed_system_perms (E : env) (s : state)
  (permission : string) (add remove : Py.arg) (label : option string)
  (show_tile protected : option bool) (force sync_perm : bool) :
  mentions_visitors add = true ->
  Py.mem (app_of (main_by_default permission)) SYSTEM_PERMS = true ->
  user_permission_update E permission add remove label show_tile protected force sync_perm s
  = (Raise (YunohostError "permission_require_account" (main_by_default permission)), s).
Proof. apply system_perms_refuse_visitors. Qed.

Lemma visitors_refused_on_listed_system_perms_witness :
  user_permission_update (demo_env [] []) "xmpp" (Py.ArgList ["admins"; "visitors"])
    Py.ArgNone None None None true false mixed_state
  = (Raise (YunohostError "permission_require_account" (main_by_default "xmpp")),
     mixed_state).
Proof.
  apply (visitors_refused_on_listed_system_perms (demo_env [] []) mixed_state "xmpp"
           (Py.ArgList ["admins"; "visitors"]) Py.ArgNone None None None true false).
  - reflexivity.
  - reflexivity.
Defined.



(** ** The write of [user_permission_update] *)

Lemma bind_step {A B : Type} (m : M A) (k : A -> M B) (s s1 : state) (a : A) :
  m s = (Ok a, s1) -> bind m k s = k a s1.
Proof. intros H. unfold bind. now rewrite H. Qed.

Lemma filter_all {A : Type} (l : list A) : filter (fun _ => true) l = l.
Proof. induction l as [|x l IH]; simpl; [reflexivity | now rewrite IH]. Qed.

Lemma phase_add (E : env) (permission : string) (current : list string) (add : Py.arg)
  (s : state) :
  forallb (fun g => negb (unknown_group E g)) (effective add) = true ->
  exists s1,
    (if Py.truthy add
     then add_groups E permission current (Py.as_list add) current
     else ret current) s
    = (Ok (current ++ filter (fun g => negb (Py.mem g current)) (effective add)), s1)
    /\ no_write s s1.
Proof.
  unfold effective. destruct (Py.truthy add); intros Hknown.
  - pose proof (add_groups_known E permission current (Py.as_list add) current s Hknown)
      as Hvalue.
    pose proof (no_write_add_groups E permission current (Py.as_list add) current s)
      as Hquiet.
    destruct (add_groups E permission current (Py.as_list add) current s) as [r s1].
    cbn [fst snd] in *. subst r. eauto.
  - exists s. cbn [filter]. rewrite app_nil_r. split; [reflexivity | apply no_write_refl].
Qed.

Lemma phase_remove (current : list string) (remove : Py.arg) (l : list string)
  (s : state) :
  exists s1,
    (if Py.truthy remove
     then remove_groups current (Py.as_list remove) ;;
          ret (filter (fun g => negb (Py.mem g (Py.as_list remove))) l)
     else ret l) s
    = (Ok (filter (fun g => negb (Py.mem g (effective remove))) l), s1)
    /\ no_write s s1.
Proof.
  unfold effective. destruct (Py.truthy remove).
  - pose proof (remove_groups_ok current (Py.as_list remove) s) as Hvalue.
    pose proof (no_write_remove_groups current (Py.as_list remove) s) as Hquiet.
    unfold bind. destruct (remove_groups current (Py.as_list remove) s) as [r s1].
    cbn [fst snd] in *. subst r. exists s1. split; [reflexivity | exact Hquiet].
  - exists s. cbn [Py.mem existsb negb]. rewrite filter_all.
    split; [reflexivity | apply no_write_refl].
Qed.

Lemma phase_when_emit (c : bool) (ev : event) (s : state) :
  ldap_writes [ev] = [] ->
  exists s1, when c (emit ev) s = (Ok tt, s1) /\ no_write s s1.
Proof.
  intros Hev. destruct c; cbn [when].
  - eexists. split; [reflexivity | apply (no_write_emit ev Hev)].
  - exists s. split; [reflexivity | apply no_write_refl].
Qed.

Lemma catalog_no_write (E : env) (s s1 : state) :
  no_write s s1 -> catalog E s1 = catalog E s.
Proof. intros [Hldap _]. unfold catalog. now rewrite Hldap. Qed.

(** X12. When an update of an existing permission passes its guards and all
    the groups to add are known, the first write it attempts is the
    [ldap.update] of that permission, and the groups it carries are the
    distinct elements of: the current allowed list, followed by the groups
    to add that are not currently allowed, all this less the groups to
    remove.  So a group both added and removed in one call is not allowed
    afterwards, and groups already allowed are not written twice. *)
Theorem update_writes_the_computed_groups (E : env) (s : state) (permission : string)
  (add remove : Py.arg) (label : option string) (show_tile protected : option bool)
  (force sync_perm : bool) (existing_permission : Perm.t) :
  Py.get (catalog E s) (main_by_default permission) = Some existing_permission ->
  mentions_visitors add && Py.mem (app_of (main_by_default permission)) SYSTEM_PERMS
  = false ->
  protected_guard add remove (Some existing_permission) force = Ok false ->
  forallb (fun g => negb (unknown_group E g)) (effective add) = true ->
  exists others rest,
    ldap_writes (trace (snd (user_permission_update E permission add remove label
                               show_tile protected force sync_perm s)))
    = ldap_writes (trace s)
      ++ LdapUpdate ("cn=" +++ main_by_default permission +++ ",ou=permission")
           (("groupPermission",
              map (fun g => Some ("cn=" +++ g +++ ",ou=groups,dc=yunohost,dc=org"))
                (Py.set (new_allowed_groups (Perm.allowed existing_permission)
                           add remove))) :: others)
         :: rest.
Proof.
  unfold mentions_visitors. intros Hget Hsys Hguard Hknown.
  set (p := main_by_default permission) in *.
  set (current := Perm.allowed existing_permission).
  unfold user_permission_update. fold p.
  destruct (user_permission_list_raw E false s) as (permissions & Hread & Hlist).
  rewrite (bind_step _ _ _ _ _ Hlist).
  assert (Hget' : Py.get permissions p = Some existing_permission).
  { unfold catalog in Hget. now rewrite Hread in Hget. }
  rewrite Hsys, Hget'.
  rewrite (bind_step (lift (protected_guard add remove (Some existing_permission) force))
             _ s s false) by (unfold lift; now rewrite Hguard).
  rewrite (bind_step (emit (RelatedTo "app" (app_of p))) _ s _ tt eq_refl).
  match goal with |- context [bind _ _ ?s0] => set (s1 := s0) end.
  assert (Hq1 : no_write s s1) by (apply (no_write_emit (RelatedTo "app" (app_of p)) eq_refl)).
  fold current.
  destruct (phase_add E p current add s1 Hknown) as (s2 & Hadd & Hq2).
  rewrite (bind_step _ _ _ _ _ Hadd).
  destruct (phase_remove current remove
              (current ++ filter (fun g => negb (Py.mem g current)) (effective add)) s2)
    as (s3 & Hremove & Hq3).
  rewrite (bind_step _ _ _ _ _ Hremove). fold (new_allowed_groups current add remove).
  match goal with
  | |- context [bind (when ?c (emit ?ev)) _ s3] =>
      destruct (phase_when_emit c ev s3 eq_refl) as (s4 & Hwhen & Hq4)
  end.
  rewrite (bind_step _ _ _ _ _ Hwhen).
  rewrite (bind_step (emit OperationStart) _ s4 _ tt eq_refl).
  match goal with |- context [bind _ _ ?s0] => set (s5 := s0) end.
  assert (Hq5 : no_write s s5).
  { eapply no_write_trans; [exact Hq1|]. eapply no_write_trans; [exact Hq2|].
    eapply no_write_trans; [exact Hq3|]. eapply no_write_trans; [exact Hq4|].
    apply (no_write_emit OperationStart eq_refl). }
  assert (Hget5 : Py.get (catalog E s5) p = Some existing_permission).
  { now rewrite (catalog_no_write E s s5 Hq5). }
  destruct (update_ldap_group_permission_first_write E s5 p
              (Py.ArgList (new_allowed_groups current add remove)) label show_tile
              protected sync_perm existing_permission Hget5 ltac:(discriminate))
    as (others & rest & Hfirst).
  exists others.
  match goal with
  | |- context [bind ?m ?k s5] =>
      destruct (bind_trace_prefix m k s5
                  (trace s5
                   ++ [LdapUpdate ("cn=" +++ p +++ ",ou=permission")
                         (("groupPermission",
                            map (fun g => Some ("cn=" +++ g
                                                +++ ",ou=groups,dc=yunohost,dc=org"))
                              (Py.set (new_allowed_groups current add remove)))
                          :: others)]))
        as [rest' Htrace]
  end.
  - intros new_permission. apply grows_bind; [|intros _]; auto with grows.
  - exists rest. rewrite Hfirst, app_assoc. reflexivity.
  - exists (ldap_writes rest'). rewrite Htrace, !ldap_writes_app.
    destruct Hq5 as [_ ->]. cbn [ldap_writes filter app].
    rewrite <- app_assoc. reflexivity.
Qed.

Lemma update_writes_the_computed_groups_witness :
  exists others rest,
    ldap_writes (trace (snd (user_permission_update (demo_env [] []) "myapp"
                               (Py.ArgList ["visitors"; "admins"; "myvisitors"])
                               (Py.ArgStr "myvisitors") None None None false true
                               mixed_state)))
    = ldap_writes (trace mixed_state)
      ++ LdapUpdate ("cn=" +++ main_by_default "myapp" +++ ",ou=permission")
           (("groupPermission",
              map (fun g => Some ("cn=" +++ g +++ ",ou=groups,dc=yunohost,dc=org"))
                (Py.set (new_allowed_groups
                           (Perm.allowed
                              (raw_infos
                                 (with_urls
                                    (permission_entry "myapp.main" ["admins"] ["alice"]
                                       false) "/" ["/old"])))
                           (Py.ArgList ["visitors"; "admins"; "myvisitors"])
                           (Py.ArgStr "myvisitors")))) :: others)
         :: rest.
Proof.
  apply (update_writes_the_computed_groups (demo_env [] []) mixed_state "myapp"
           (Py.ArgList ["visitors"; "admins"; "myvisitors"]) (Py.ArgStr "myvisitors")
           None None None false true).
  - reflexivity.
  - reflexivity.
  - reflexivity.
  - reflexivity.
Defined.

(** ** [permission_create] *)




Lemma ldap_add_ok (E : env) (name : string) (attr_dict : list (string * list string))
  (s s' : state) :
  ldap_add E ("cn=" +++ name +++ ",ou=permission") attr_dict s = (Ok tt, s') ->
  map cn (ldap s') = map cn (ldap s) ++ [name] /\ ~ In name (map cn (ldap s)).
Proof.
  unfold ldap_add. intros H.
  destruct (_ || _) eqn:Hrefused; [discriminate|]. injection H as <-. cbn [ldap].
  apply orb_false_iff in Hrefused as [Hrefused Hnew].
  apply orb_false_iff in Hrefused as [_ Hexists].
  rewrite negb_false_iff, has_dn_cn in Hnew. apply String.eqb_eq in Hnew. cbn [cn] in Hnew.
  split.
  - rewrite map_app. cbn [map cn]. now rewrite Hnew.
  - intros Hin. apply in_map_iff in Hin as (e & Hcn & He).
    assert (Hex : existsb (has_dn ("cn=" +++ name +++ ",ou=permission")) (ldap s) = true).
    { apply existsb_exists. exists e. split; [exact He|].
      rewrite has_dn_cn. now apply String.eqb_eq. }
    congruence.
Qed.

(** X14. When [permission_create] returns normally, the directory holds one
    more entry, at the end and under the name of the new permission (with
    [.main] added to a bare app name); that name was not in the directory
    before, and the other entries keep their names and order. *)
Theorem create_adds_one_entry (E : env) (fuel : nat) (s s' : state) (permission : string)
  (allowed : Py.arg) (url : option string) (additional_urls : option (list string))
  (auth_header : bool) (label : option string) (show_tile protected sync_perm : bool)
  (new_permission : Perm.t) :
  permission_create E fuel permission allowed url additional_urls auth_header label
    show_tile protected sync_perm s = (Ok new_permission, s') ->
  map cn (ldap s') = map cn (ldap s) ++ [main_by_default permission]
  /\ ~ In (main_by_default permission) (map cn (ldap s)).
Proof.
  unfold permission_create. intros H.
  apply bind_ok in H as (conflict & s0 & Hconflict & H).
  unfold ldap_get_conflict in Hconflict. injection Hconflict as _ <-.
  destruct conflict; [discriminate|].
  apply bind_ok in H as (gid & s1 & Hgid & H).
  assert (Hldap1 : ldap s1 = ldap s).
  { clear H. revert s Hgid. induction fuel as [|fuel IH]; intros s Hgid;
      cbn [random_gid] in Hgid; [discriminate|].
    apply bind_ok in Hgid as (n & s0 & Hn & Hgid).
    unfold random_randint in Hn. injection Hn as _ <-.
    destruct (negb _).
    - injection Hgid as _ <-. reflexivity.
    - apply IH in Hgid. exact Hgid. }
  apply bind_ok in H as ([] & s2 & Hvalid & H).
  assert (Hldap2 : ldap s2 = ldap s1).
  { pose proof (preserves_for_each no_write no_write_refl no_write_trans
                  (Py.as_list (match allowed with
                               | Py.ArgNone => Py.ArgNone
                               | _ => Py.ArgList (Py.as_list allowed)
                               end))
                  (fun group => when (negb (Py.mem group (map fst (groups E))))
                                  (raise (YunohostError "group_unknown" group)))) as Hq.
    specialize (Hq ltac:(intros g; apply (preserves_when no_write no_write_refl);
                         apply preserves_raise; exact no_write_refl) s1).
    rewrite Hvalid in Hq. apply Hq. }
  apply bind_ok in H as ([] & s3 & H3 & H). apply emit_ok in H3.
  apply bind_ok in H as ([] & s4 & H4 & H). apply emit_ok in H4.
  apply bind_ok in H as ([] & s5 & Hadd & H).
  apply try_raise_ok, ldap_add_ok in Hadd as [Hnames Hfresh].
  apply bind_ok in H as (np & s6 & Hupdate & H).
  pose proof (same_names_update_ldap_group_permission E (main_by_default permission)
                (match allowed with
                 | Py.ArgNone => Py.ArgNone
                 | _ => Py.ArgList (Py.as_list allowed)
                 end) label (Some show_tile) (Some protected) false s5) as Hn6.
  rewrite Hupdate in Hn6. cbn [snd] in Hn6.
  apply bind_ok in H as (np' & s7 & Hurl & H).
  pose proof (same_names_permission_url E (main_by_default permission) url additional_urls
                None (Some auth_header) false sync_perm s6) as Hn7.
  rewrite Hurl in Hn7. cbn [snd] in Hn7.
  apply bind_ok in H as ([] & s8 & H8 & H). apply emit_ok in H8.
  injection H as _ <-.
  unfold same_names in *.
  replace (ldap s) with (ldap s4) by congruence.
  split; [congruence | exact Hfresh].
Qed.

Lemma create_adds_one_entry_witness :
  map cn (ldap (snd create_viewers))
  = map cn (ldap mixed_state) ++ [main_by_default "myapp.viewers"]
  /\ ~ In (main_by_default "myapp.viewers") (map cn (ldap mixed_state)).
Proof.
  apply (create_adds_one_entry (demo_env [] []) 1 mixed_state (snd create_viewers)
           "myapp.viewers" (Py.ArgStr "visitors") (Some "/view") None true
           (Some "Viewers") true false true
           {| Perm.allowed := ["visitors"]; Perm.corresponding_users := [];
              Perm.auth_header := true; Perm.label := Some "Viewers";
              Perm.show_tile := true; Perm.protected := false;
              Perm.url := None; Perm.additional_urls := [None] |}).
  reflexivity.
Defined.

(** ** [user_permission_reset] and [permission_url] on what is not there *)

(** X15. Resetting a permission that is not in the catalog, or changing its
    urls, raises [permission_not_found] and changes nothing, whatever the
    other arguments. *)
Theorem missing_permission_is_reported (E : env) (s : state) (permission : string)
  (url : option string) (add_url remove_url : option (list string))
  (auth_header : option bool) (clear_urls sync_perm : bool) :
  Py.get (catalog E s) (main_by_default permission) = None ->
  user_permission_reset E permission sync_perm s
  = (Raise (YunohostError "permission_not_found" (main_by_default permission)), s)
  /\ permission_url E permission url add_url remove_url auth_header clear_urls sync_perm s
     = (Raise (YunohostError "permission_not_found" (main_by_default permission)), s).
Proof.
  unfold catalog. intros Hget.
  destruct (user_permission_list_raw E false s) as (permissions & Hread & Hlist).
  rewrite Hread in Hget. split.
  - unfold user_permission_reset. rewrite (bind_step _ _ _ _ _ Hlist), Hget. reflexivity.
  - unfold permission_url. rewrite (bind_step _ _ _ _ _ Hlist), Hget. reflexivity.
Qed.

Lemma missing_permission_is_reported_witness :
  user_permission_reset (demo_env [] []) "nextcloud" true mixed_state
  = (Raise (YunohostError "permission_not_found" (main_by_default "nextcloud")),
     mixed_state)
  /\ permission_url (demo_env [] []) "nextcloud" (Some "/") (Some ["/api"]) None None true
       true mixed_state
     = (Raise (YunohostError "permission_not_found" (main_by_default "nextcloud")),
        mixed_state).
Proof.
  apply (missing_permission_is_reported (demo_env [] []) mixed_state "nextcloud"
           (Some "/") (Some ["/api"]) None None true true).
  reflexivity.
Defined.

Lemma reset_of_default_only_warns_witness :
  user_permission_reset (demo_env [] []) "mail" true mixed_state
  = (Ok None, {| ldap := ldap mixed_state;
                 trace := trace mixed_state ++ [Warning "permission_already_up_to_date" ""];
                 rand_calls := rand_calls mixed_state |}).
Proof.
  apply (reset_of_default_only_warns (demo_env [] []) mixed_state "mail" true
           (raw_infos (permission_entry "mail.main" ["all_users"] ["alice"; "bob"] true))).
  - reflexivity.
  - reflexivity.
Defined.

Lemma update_bare_string_as_list_witness :
  user_permission_update (demo_env [] []) "myapp" (Py.ArgStr "myvisitor") Py.ArgNone
    None None None false true mixed_state
  = user_permission_update (demo_env [] []) "myapp" (Py.ArgList ["myvisitor"]) Py.ArgNone
      None None None false true mixed_state
  /\ user_permission_update (demo_env [] []) "myapp" Py.ArgNone (Py.ArgStr "myvisitor")
       None None None false true mixed_state
     = user_permission_update (demo_env [] []) "myapp" Py.ArgNone (Py.ArgList ["myvisitor"])
         None None None false true mixed_state.
Proof.
  destruct (update_bare_string_as_list (demo_env [] []) "myapp" "myvisitor" Py.ArgNone
              None None None false true eq_refl) as [Hadd Hremove].
  split.
  - exact (f_equal (fun run => run mixed_state) Hadd).
  - exact (f_equal (fun run => run mixed_state) Hremove).
Defined.

(** ** The access-change callbacks, continued *)

Lemma diff_nil (a b : list string) : (forall x, In x a -> In x b) -> Py.diff a b = [].
Proof.
  intros H. unfold Py.diff. induction a as [|x a IH]; cbn [filter].
  - reflexivity.
  - assert (Hx : Py.mem x b = true) by (apply mem_In, H; simpl; auto).
    rewrite Hx. cbn [negb]. apply IH. intros y Hy. apply H. simpl. auto.
Qed.

(** X16. When the users and the allowed groups are the same sets before and
    after an operation (in any order, with or without repetitions), no hook
    is called. *)
Theorem no_callback_without_change (app sub_permission : string)
  (existing_permission new_permission : Perm.t) :
  Py.set_eqb (Perm.corresponding_users existing_permission)
    (Perm.corresponding_users new_permission) = true ->
  Py.set_eqb (Perm.allowed existing_permission) (Perm.allowed new_permission) = true ->
  access_callbacks app sub_permission existing_permission new_permission = [].
Proof.
  intros Husers Hallowed.
  rewrite set_eqb_spec in Husers. rewrite set_eqb_spec in Hallowed.
  assert (Hau : effectively_added_users existing_permission new_permission = []).
  { apply diff_nil. intros x. rewrite !set_In. apply Husers. }
  assert (Hru : effectively_removed_users existing_permission new_permission = []).
  { apply diff_nil. intros x. rewrite !set_In. apply Husers. }
  assert (Hag : effectively_added_group existing_permission new_permission = []).
  { unfold effectively_added_group. rewrite Hau.
    rewrite (diff_nil (Py.set (Perm.allowed new_permission))); [reflexivity|].
    intros x. rewrite !set_In. apply Hallowed. }
  assert (Hrg : effectively_removed_group existing_permission new_permission = []).
  { unfold effectively_removed_group. rewrite Hru.
    rewrite (diff_nil (Py.set (Perm.allowed existing_permission))); [reflexivity|].
    intros x. rewrite !set_In. apply Hallowed. }
  unfold access_callbacks. rewrite Hau, Hru, Hag, Hrg. reflexivity.
Qed.

Lemma no_callback_without_change_witness :
  access_callbacks "myapp" "main" (access_record ["admins"; "visitors"] ["alice"; "bob"])
    (access_record ["visitors"; "admins"; "admins"] ["bob"; "alice"]) = [].
Proof.
  apply (no_callback_without_change "myapp" "main"
           (access_record ["admins"; "visitors"] ["alice"; "bob"])
           (access_record ["visitors"; "admins"; "admins"] ["bob"; "alice"])).
  - reflexivity.
  - reflexivity.
Defined.

(** X17. The callbacks never report the same user as both gaining and losing
    access, nor the same group as both added and removed; and a name
    reported among the added (removed) users is never repeated among the
    added (removed) groups. *)
Theorem access_change_sets_are_disjoint (existing_permission new_permission : Perm.t) :
  (forall u, ~ (In u (effectively_added_users existing_permission new_permission)
                /\ In u (effectively_removed_users existing_permission new_permission)))
  /\ (forall g, ~ (In g (effectively_added_group existing_permission new_permission)
                   /\ In g (effectively_removed_group existing_permission new_permission)))
  /\ (forall x, ~ (In x (effectively_added_users existing_permission new_permission)
                   /\ In x (effectively_added_group existing_permission new_permission)))
  /\ (forall x, ~ (In x (effectively_removed_users existing_permission new_permission)
                   /\ In x (effectively_removed_group existing_permission new_permission))).
Proof.
  unfold effectively_added_group, effectively_removed_group,
    effectively_added_users, effectively_removed_users.
  repeat split; intros x; rewrite ?diff_In, ?set_In; tauto.
Qed.

(** ** The synchronizer and groups that do not exist *)

Lemma members_of_unknown (E : env) (allowed : list string) (group : string) :
  find (unknown_group E) allowed = Some group ->
  members_of E allowed = Raise (KeyError group).
Proof.
  induction allowed as [|g rest IH]; cbn [find members_of].
  - discriminate.
  - unfold unknown_group at 1.
    destruct (Py.get (groups E) g) as [members|] eqn:Hget.
    + assert (Hmem : Py.mem g (map fst (groups E)) = true).
      { apply mem_In. destruct (in_dec string_dec g (map fst (groups E))) as [H|H];
          [exact H|]. apply get_none_iff in H. congruence. }
      rewrite Hmem. cbn [negb]. intros H. rewrite (IH H). reflexivity.
    + assert (Hmem : Py.mem g (map fst (groups E)) = false).
      { apply mem_false. apply get_none_iff. exact Hget. }
      rewrite Hmem. cbn [negb]. intros H. injection H as <-. reflexivity.
Qed.

(** X18. When a permission allows a group that the group directory does not
    know, the synchronization pass raises [KeyError] for the first such
    group when it reaches that permission: the permissions before it have
    been processed, nothing is written for it, the permissions after it are
    not examined and the closing steps are not run. *)
Theorem sync_stops_at_unknown_group (E : env) (s s1 : state)
  (before after : list (string * Perm.t)) (name : string) (permission_infos : Perm.t)
  (group : string) :
  read_permissions E false false (ldap s) [] = Ok (before ++ (name, permission_infos) :: after) ->
  for_each before (sync_permission E) s = (Ok tt, s1) ->
  find (unknown_group E) (Perm.allowed permission_infos) = Some group ->
  permission_sync_to_user E s = (Raise (KeyError group), s1).
Proof.
  intros Hread Hbefore Hfind.
  unfold permission_sync_to_user, user_permission_list, bind at 1.
  rewrite Hread. unfold bind at 1.
  rewrite for_each_app, Hbefore. cbn [for_each]. unfold bind at 1.
  unfold sync_permission, bind, lift. rewrite (members_of_unknown E _ group Hfind).
  reflexivity.
Qed.

Lemma sync_stops_at_unknown_group_witness :
  permission_sync_to_user (demo_env [] []) orphan_state
  = (Raise (KeyError "ghosts"),
     snd (for_each [("myapp.main", access_record ["admins"] [])]
            (sync_permission (demo_env [] [])) orphan_state)).
Proof.
  apply (sync_stops_at_unknown_group (demo_env [] []) orphan_state
           (snd (for_each [("myapp.main", access_record ["admins"] [])]
                   (sync_permission (demo_env [] [])) orphan_state))
           [("myapp.main",
              raw_infos (permission_entry "myapp.main" ["admins"] [] false))]
           [("mail.main",
              raw_infos (permission_entry "mail.main" ["all_users"] [] true))]
           "myapp.editors"
           (raw_infos (permission_entry "myapp.editors" ["visitors"; "ghosts"] [] false))
           "ghosts").
  - reflexivity.
  - reflexivity.
  - reflexivity.
Defined.

(** ** URL completion, continued *)

Lemma rstrip_no_trailing_slash (s : string) : endswith (Py.rstrip s "/") "/" = false.
Proof.
  induction s as [|c s IH]; cbn [Py.rstrip].
  - reflexivity.
  - destruct (Py.rstrip s "/") as [|d r] eqn:Hr.
    + cbn [Py.mem_ascii]. rewrite orb_false_r.
      destruct (Ascii.eqb c "/") eqn:Hc; [reflexivity|].
      cbn [endswith String.eqb]. now rewrite Hc.
    + change (endswith (String c (String d r)) "/")
        with (String.eqb (String c (String d r)) "/" || endswith (String d r) "/").
      rewrite IH. cbn [String.eqb]. destruct (Ascii.eqb c "/"); reflexivity.
Qed.

Lemma rstrip_prefix (s chars : string) : String.prefix (Py.rstrip s chars) s = true.
Proof.
  induction s as [|c s IH]; cbn [Py.rstrip].
  - reflexivity.
  - destruct (Py.rstrip s chars) as [|d r].
    + destruct (Py.mem_ascii c chars); cbn [String.prefix]; [reflexivity|].
      destruct (ascii_dec c c); [destruct s; reflexivity | congruence].
    + cbn [String.prefix]. destruct (ascii_dec c c); [exact IH | congruence].
Qed.

(** X19. A url that starts with [/] is completed, for an app with settings,
    to the app's domain+path followed by the url without its trailing
    slashes: what follows the app base is the beginning of the given url
    and never ends with a slash, and [/] alone gives the bare app base.  For
    an app without settings the completion raises [KeyError]. *)
Theorem complete_url_of_relative_path (app_settings : list (string * string))
  (url name : string) :
  Py.startswith url "/" = true ->
  match Py.get app_settings (app_of name) with
  | Some base =>
      _complete_url app_settings (Some url) name
      = Ok (Some (base +++ Py.rstrip url "/"))
      /\ endswith (Py.rstrip url "/") "/" = false
      /\ Py.startswith url (Py.rstrip url "/") = true
      /\ _complete_url app_settings (Some "/") name = Ok (Some (base +++ ""))
  | None => _complete_url app_settings (Some url) name = Raise (KeyError (app_of name))
  end.
Proof.
  intros Hrel. unfold _complete_url. rewrite Hrel.
  destruct (Py.get app_settings (app_of name)) as [base|]; [|reflexivity].
  split; [reflexivity|]. split; [apply rstrip_no_trailing_slash|].
  split; [apply rstrip_prefix | reflexivity].
Qed.

Lemma complete_url_of_relative_path_witness :
  _complete_url [("myapp", "example.org/myapp")] (Some "/admin/panel//") "myapp.main"
  = Ok (Some ("example.org/myapp" +++ Py.rstrip "/admin/panel//" "/"))
  /\ endswith (Py.rstrip "/admin/panel//" "/") "/" = false
  /\ Py.startswith "/admin/panel//" (Py.rstrip "/admin/panel//" "/") = true
  /\ _complete_url [("myapp", "example.org/myapp")] (Some "/") "myapp.main"
     = Ok (Some ("example.org/myapp" +++ "")).
Proof.
  apply (complete_url_of_relative_path [("myapp", "example.org/myapp")]
           "/admin/panel//" "myapp.main").
  reflexivity.
Defined.

(** ** The write of [permission_url] *)

Lemma write_then {A : Type} (E : env) (dn : string) (attr_dict : delta) (e : exn)
  (k : M A) (s : state) :
  grows k ->
  exists rest,
    trace (snd (bind (try_except (ldap_update E dn attr_dict) (fun _ => raise e))
                  (fun _ => k) s))
    = trace s ++ [LdapUpdate dn attr_dict] ++ rest.
Proof.
  intros Hk. unfold bind, try_except, ldap_update, raise.
  destruct (_ || _).
  - exists []. reflexivity.
  - match goal with |- context [k ?s1] => destruct (Hk s1) as [rest Hrest] end.
    exists rest. rewrite Hrest. cbn [trace]. now rewrite <- app_assoc.
Qed.

Lemma phase_remove_urls (url : option string) (current : list (option string))
  (remove_url : list string) (s : state) :
  exists s1, remove_urls url current remove_url s = (Ok tt, s1) /\ no_write s s1.
Proof.
  unfold remove_urls. revert s.
  induction remove_url as [|ur rest IH]; intros s; cbn [for_each].
  - exists s. split; [reflexivity | apply no_write_refl].
  - match goal with
    | |- context [bind (when ?c (emit ?ev)) _ s] =>
        destruct (phase_when_emit c ev s eq_refl) as (s1 & Hwhen & Hq1)
    end.
    rewrite (bind_step _ _ _ _ _ Hwhen).
    destruct (IH s1) as (s2 & Hrest & Hq2). exists s2.
    split; [exact Hrest | eapply no_write_trans; eassumption].
Qed.

(** X20. When [permission_url] is called on an existing permission without
    urls to add and its main url, if given, passes the path check, the first
    write it attempts is one [ldap.update] of that permission with exactly:
    the main url (the checked one, or the stored one when none is given);
    the stored additional urls less the urls to remove, without
    repetitions; the given [auth_header] or, when none is given, the stored
    one.  With [clear_urls] both the main url and the additional urls are
    written empty, whatever the other arguments. *)
Theorem url_writes_the_computed_urls (E : env) (s : state) (permission : string)
  (url : option string) (remove_url : option (list string)) (auth_header : option bool)
  (clear_urls sync_perm : bool) (existing_permission : Perm.t) (checked : option string) :
  Py.get (catalog E s) (main_by_default permission) = Some existing_permission ->
  resolved_url E url existing_permission = Ok checked ->
  exists rest,
    ldap_writes (trace (snd (permission_url E permission url None remove_url auth_header
                               clear_urls sync_perm s)))
    = ldap_writes (trace s)
      ++ LdapUpdate ("cn=" +++ main_by_default permission +++ ",ou=permission")
           [("URL", if clear_urls then []
                    else match checked with Some u => [Some u] | None => [] end);
            ("additionalUrls",
              if clear_urls then []
              else Py.set_opt (filter (not_in_removed (effective_urls remove_url))
                                 (Perm.additional_urls existing_permission)));
            ("authHeader",
              [Some (Py.str_upper_of_bool
                       match auth_header with
                       | Some b => b
                       | None => Perm.auth_header existing_permission
                       end)])]
         :: rest.
Proof.
  intros Hget Hurl.
  set (p := main_by_default permission) in *.
  unfold permission_url. fold p.
  destruct (user_permission_list_raw E false s) as (permissions & Hread & Hlist).
  rewrite (bind_step _ _ _ _ _ Hlist).
  assert (Hget' : Py.get permissions p = Some existing_permission).
  { unfold catalog in Hget. now rewrite Hread in Hget. }
  rewrite Hget'.
  assert (Hphase1 : (match url with
                     | None => ret (Perm.url existing_permission)
                     | Some u =>
                         checked <- lift (_check_and_normalize_permission_path E u) ;;
                         ret (Some checked)
                     end) s = (Ok checked, s)).
  { unfold resolved_url in Hurl. destruct url as [u|].
    - unfold bind, lift, ret.
      destruct (_check_and_normalize_permission_path E u); cbn [rbind] in Hurl;
        [|discriminate]. now injection Hurl as <-.
    - now injection Hurl as <-. }
  rewrite (bind_step _ _ _ _ _ Hphase1).
  rewrite (bind_step (ret (Perm.additional_urls existing_permission)) _ s s _ eq_refl).
  assert (Hphase3 : exists s3,
             (match remove_url with
              | Some (ur :: rest) =>
                  remove_urls checked (Perm.additional_urls existing_permission)
                    (ur :: rest) ;;
                  ret (filter (not_in_removed (ur :: rest))
                         (Perm.additional_urls existing_permission))
              | _ => ret (Perm.additional_urls existing_permission)
              end) s
             = (Ok (filter (not_in_removed (effective_urls remove_url))
                      (Perm.additional_urls existing_permission)), s3)
             /\ no_write s s3).
  { assert (Hnone : filter (not_in_removed [])
                      (Perm.additional_urls existing_permission)
                    = Perm.additional_urls existing_permission).
    { erewrite filter_ext; [apply filter_all|]. intros [u|]; reflexivity. }
    destruct remove_url as [[|ur rest]|]; cbn [effective_urls].
    - exists s. rewrite Hnone. split; [reflexivity | apply no_write_refl].
    - destruct (phase_remove_urls checked (Perm.additional_urls existing_permission)
                  (ur :: rest) s) as (s3 & Hrun & Hq).
      exists s3. rewrite (bind_step _ _ _ _ _ Hrun). split; [reflexivity | exact Hq].
    - exists s. rewrite Hnone. split; [reflexivity | apply no_write_refl]. }
  destruct Hphase3 as (s3 & Hphase3 & Hq3).
  rewrite (bind_step _ _ _ _ _ Hphase3).
  rewrite (bind_step (emit (RelatedTo "app" (app_of p))) _ s3 _ tt eq_refl).
  rewrite (bind_step (emit OperationStart) _ _ _ tt eq_refl).
  match goal with |- context [bind _ _ ?s0] => set (s5 := s0) end.
  assert (Hq5 : no_write s s5).
  { eapply no_write_trans; [exact Hq3|].
    eapply no_write_trans; [apply (no_write_emit (RelatedTo "app" (app_of p)) eq_refl)|].
    apply (no_write_emit OperationStart eq_refl). }
  match goal with
  | |- context [bind (try_except (ldap_update E ?dn ?d) (fun _ => raise ?e)) (fun _ => ?k) s5] =>
      destruct (write_then E dn d e k s5) as [rest Htrace]
  end.
  { apply grows_bind; [apply grows_when; auto with grows|]. intros _.
    apply grows_bind; [auto with grows|]. intros _.
    apply grows_bind; [auto with grows|]. intros permissions'. auto with grows. }
  exists (ldap_writes rest). rewrite Htrace, !ldap_writes_app.
  destruct Hq5 as [_ ->]. cbn [ldap_writes filter app].
  destruct clear_urls; reflexivity.
Qed.

Lemma url_writes_the_computed_urls_witness :
  exists rest,
    ldap_writes (trace (snd (permission_url (demo_env [] []) "myapp" (Some "/new") None
                               (Some ["/old"; "/never"]) None false true mixed_state)))
    = ldap_writes (trace mixed_state)
      ++ LdapUpdate ("cn=" +++ main_by_default "myapp" +++ ",ou=permission")
           [("URL", if false then []
                    else match Some "/new" with Some u => [Some u] | None => [] end);
            ("additionalUrls",
              if false then []
              else Py.set_opt
                     (filter (not_in_removed (effective_urls (Some ["/old"; "/never"])))
                        (Perm.additional_urls
                           (raw_infos
                              (with_urls
                                 (permission_entry "myapp.main" ["admins"] ["alice"] false)
                                 "/" ["/old"])))));
            ("authHeader",
              [Some (Py.str_upper_of_bool
                       match @None bool with
                       | Some b => b
                       | None =>
                           Perm.auth_header
                             (raw_infos
                                (with_urls
                                   (permission_entry "myapp.main" ["admins"] ["alice"]
                                      false) "/" ["/old"]))
                       end)])]
         :: rest.
Proof.
  apply (url_writes_the_computed_urls (demo_env [] []) mixed_state "myapp" (Some "/new")
           (Some ["/old"; "/never"]) None false true
           (raw_infos (with_urls (permission_entry "myapp.main" ["admins"] ["alice"] false)
                         "/" ["/old"]))
           (Some "/new")).
  - reflexivity.
  - reflexivity.
Defined.
